(** * TheAgent web server: the [startExtraction] coordinator

    A shallow embedding of [src/server.ts], the Socket.IO handler that
    runs the requested extraction modules over one uploaded PDF and
    streams events to the connected client, with the properties that
    the specification states about it.

    Layout:
    - [Number]: JavaScript numbers as far as the handler computes with them;
    - the data exchanged with the extraction modules and the events sent
      on the socket;
    - [Proc]: the async handler as a tree of emitted events and awaited
      calls, [startExtraction] itself, and its two semantics: one run
      executed alone ([run]) and several handler invocations interleaved
      on one socket ([Session]);
    - the theorems. *)

From Stdlib Require Import QArith Lia Lqa List String Ascii Sorted.
From stdpp Require Import base strings gmap list pretty.
Import ListNotations.

Open Scope string_scope.
Open Scope list_scope.

(** ** JavaScript numbers *)

(** The handler does arithmetic in two places: the progress percentage
    and the average citation quality.  A number is a rational, one of
    the two infinities, or NaN.  Finite arithmetic is exact: IEEE-754
    rounding to binary64 is not modelled (it is monotone and leaves 0, 5,
    10, 80 and 100 as they are), and neither is the sign of zero.  The
    special cases of [/], [*] and [+] are those of IEEE-754, in
    particular [0 / 0 = NaN]. *)
Module Number.

Inductive number : Type :=
| Finite (q : Q)
| Infinity (negative : bool)
| NaN.

Definition is_zero (q : Q) : bool := Qeq_bool q 0.
Definition is_negative (q : Q) : bool := negb (Qle_bool 0 q).

Definition of_nat (n : nat) : number := Finite (inject_Z (Z.of_nat n)).

(** [x + y] *)
Definition add (x y : number) : number :=
  match x, y with
  | NaN, _ | _, NaN => NaN
  | Finite a, Finite b => Finite (a + b)
  | Infinity s, Finite _ | Finite _, Infinity s => Infinity s
  | Infinity s, Infinity t => if Bool.eqb s t then Infinity s else NaN
  end.

(** [x * y] *)
Definition mul (x y : number) : number :=
  match x, y with
  | NaN, _ | _, NaN => NaN
  | Finite a, Finite b => Finite (a * b)
  | Infinity s, Finite b | Finite b, Infinity s =>
      if is_zero b then NaN else Infinity (xorb s (is_negative b))
  | Infinity s, Infinity t => Infinity (xorb s t)
  end.

(** [x / y] *)
Definition div (x y : number) : number :=
  match x, y with
  | NaN, _ | _, NaN => NaN
  | Finite a, Finite b =>
      if is_zero b
      then (if is_zero a then NaN else Infinity (is_negative a))
      else Finite (a / b)
  | Finite _, Infinity _ => Finite 0
  | Infinity s, Finite b => Infinity (xorb s (is_negative b))
  | Infinity _, Infinity _ => NaN
  end.

(** [x > y]: false as soon as one side is NaN. *)
Definition gt (x y : number) : bool :=
  match x, y with
  | NaN, _ | _, NaN => false
  | Finite a, Finite b => negb (Qle_bool a b)
  | Infinity s, Finite _ => negb s
  | Finite _, Infinity t => t
  | Infinity s, Infinity t => negb s && t
  end.

(** [x <= y], as a proposition; NaN is comparable with nothing. *)
Definition le (x y : number) : Prop :=
  match x, y with
  | NaN, _ | _, NaN => False
  | Finite a, Finite b => (a <= b)%Q
  | Infinity s, Finite _ => s = true
  | Finite _, Infinity t => t = false
  | Infinity s, Infinity t => s = true \/ t = false
  end.

(** [x < y], as a proposition. *)
Definition lt (x y : number) : Prop :=
  match x, y with
  | NaN, _ | _, NaN => False
  | Finite a, Finite b => (a < b)%Q
  | Infinity s, Finite _ => s = true
  | Finite _, Infinity t => t = false
  | Infinity s, Infinity t => s = true /\ t = false
  end.

(** Equality of numbers as values: rationals up to [Qeq]. *)
Definition same (x y : number) : Prop :=
  match x, y with
  | NaN, NaN => True
  | Finite a, Finite b => (a == b)%Q
  | Infinity s, Infinity t => s = t
  | _, _ => False
  end.

Definition is_NaN (x : number) : bool :=
  match x with NaN => true | _ => false end.

End Number.
Import Number.

Declare Scope number_scope.
Delimit Scope number_scope with num.
Bind Scope number_scope with number.
Notation "x + y" := (add x y) : number_scope.
Notation "x * y" := (mul x y) : number_scope.
Notation "x / y" := (div x y) : number_scope.
Notation "x > y" := (gt x y) : number_scope.
Notation "x <= y" := (le x y) : number_scope.

(** Decimal literals of the source. *)
Definition num (n : Z) : number := Finite (inject_Z n).
Definition zero_point_seven : number := Finite (7 # 10).

(** ** Data exchanged with the extraction modules *)

(** Data that the handler only passes along: any JSON value. *)
#[local] Unset Elimination Schemes.
Inductive json : Type :=
| JNull
| JBool (b : bool)
| JNumber (x : number)
| JString (s : string)
| JArray (items : list json)
| JObject (fields : list (string * json)).
#[local] Set Elimination Schemes.

(** Modelled from the spec: the declarations of [./types/index.js] and of
    the five extractor modules are not in the source.  A table record, the
    imaging metrics and the outcomes are objects that [server.ts] passes
    along without reading a field of them.  Being objects, they are
    truthy. *)
Definition Table : Type := list (string * json).
Definition ImagingMetrics : Type := list (string * json).
Definition Outcomes : Type := list (string * json).

(** Modelled from the spec: the harmonized outcomes, of which [server.ts]
    reads [timepoints.length]; the declaration is not in the source. *)
Record HarmonizedOutcomes : Type := {
  timepoints : list json;
  harmonized_rest : list (string * json)
}.

(** Modelled from the spec: a citation record, with its numeric quality
    score; the declaration is not in the source. *)
Record Citation : Type := {
  quality_score : number;
  citation_rest : list (string * json)
}.

(** The object that the handler assigns to [result.citations_metadata]. *)
Record CitationsMetadata : Type := {
  total_extracted : nat;
  valid_citations : nat;
  average_quality : number;
  duplicates_removed : nat
}.

(** Modelled from the spec: [Partial<CerebellumExtractionData>], whose
    declaration is not in the source.  Every property may be absent.  The
    properties that [server.ts] names are typed; [study_fields] holds
    every other top-level property (study metadata, methods, results,
    discussion).  The result of the full-PDF extractor, which the handler
    merges with [Object.assign], has this type too. *)
Record ExtractionData : Type := {
  outcomes : option Outcomes;
  tables : option (list Table);
  imaging : option ImagingMetrics;
  harmonized_outcomes : option HarmonizedOutcomes;
  citations : option (list Citation);
  citations_metadata : option CitationsMetadata;
  study_fields : gmap string json
}.

(** [{}] *)
Definition empty_object : ExtractionData :=
  {| outcomes := None; tables := None; imaging := None;
     harmonized_outcomes := None; citations := None;
     citations_metadata := None; study_fields := ∅ |}.

(** One property copied by [Object.assign]: the source's when it has one. *)
Definition assign_property {A} (target source : option A) : option A :=
  match source with
  | Some v => Some v
  | None => target
  end.

(** [Object.assign(target, source)]: every own property of [source]
    overwrites the property of the same name in [target]. *)
Definition Object_assign (target source : ExtractionData) : ExtractionData :=
  {| outcomes := assign_property (outcomes target) (outcomes source);
     tables := assign_property (tables target) (tables source);
     imaging := assign_property (imaging target) (imaging source);
     harmonized_outcomes :=
       assign_property (harmonized_outcomes target) (harmonized_outcomes source);
     citations := assign_property (citations target) (citations source);
     citations_metadata :=
       assign_property (citations_metadata target) (citations_metadata source);
     study_fields := study_fields source ∪ study_fields target |}.

(** Modelled from the spec: what the promises of the extractor modules
    resolve to, with the one property that [server.ts] reads of each; the
    declarations are not in the source. *)
Record TableResult : Type := { tableResult_tables : list Table }.
Record ImagingResult : Type := { metrics : ImagingMetrics }.
Record HarmonizedResult : Type := { harmonized : HarmonizedOutcomes }.
Record CitationResult : Type := { citationResult_citations : list Citation }.

(** A thrown value: an [Error] with its message, or anything else. *)
Inductive thrown : Type :=
| ErrorObject (message : string)
| NotAnError.

(** A settled promise (or a synchronous call that may throw). *)
Definition settled (R : Type) : Type := thrown + R.

(** ** Events sent on the socket *)

(** The [data] of a [moduleComplete] event, one shape per module. *)
Inductive ModuleData : Type :=
| FullPdfData (fullPdfResult : ExtractionData)
| TablesData (data_tables : list Table) (count : nat)
| ImagingData (imagingMetrics : ImagingMetrics)
| HarmonizerData (harmonizedOutcomes : HarmonizedOutcomes)
| CitationsData (count : nat) (data_citations : list Citation).

(** [socket.emit(name, payload)], one constructor per event name. *)
Inductive Event : Type :=
| error (message : string)
| progress (step message : string) (percent : number)
| moduleStart (module name : string)
| moduleComplete (module : string) (data : ModuleData) (message : string)
| moduleError (module error_message : string)
| extractionComplete (success : bool) (data : ExtractionData)
    (modulesExecuted : list string) (timestamp : string).

(** ** The handler as a process *)

(** The calls that the handler awaits: the five imported extractors, each
    with the type of the value its promise resolves to. *)
Inductive Request : Type -> Type :=
| extractFullPdf (pdfBase64 : string) : Request ExtractionData
| extractTablesAndFigures (pdfBase64 : string) : Request TableResult
| extractImagingMetrics (pdfBase64 : string) : Request ImagingResult
| harmonizeOutcomes (outcomes : Outcomes) : Request HarmonizedResult
| extractCitations (pdfBase64 : string) : Request CitationResult.

(** What one invocation of the async handler does, seen from outside: it
    emits events and awaits extractor calls.  [Await call k] suspends the
    handler until the promise of [call] settles; [k] is the rest of the
    handler, which gets the resolved value or the thrown one. *)
Inductive Proc : Type :=
| Done
| Emit (e : Event) (k : Proc)
| Await {R : Type} (call : Request R) (k : settled R -> Proc).

(** What the handler reads from its host: the file system, [path.join],
    [Buffer.toString('base64')] and the clock. *)
Record Host : Type := {
  uploadsDir : string;
  join : string -> string -> string;
  existsSync : string -> bool;
  readFileSync : string -> settled string;
  toString_base64 : string -> string;
  toISOString_now : string
}.

(** The payload of the [startExtraction] message. *)
Record StartData : Type := {
  filename : string;
  modules : list string
}.

(** [e instanceof Error ? e.message : fallback] *)
Definition message_of (e : thrown) (fallback : string) : string :=
  match e with
  | ErrorObject message => message
  | NotAnError => fallback
  end.

(** The five [case] labels of the [switch]. *)
Inductive ModuleName : Type :=
| full_pdf | tables_ | imaging_ | harmonizer | citations_.

(** [switch (moduleName)]: the label that [moduleName] is strictly equal
    to, if any.  The [switch] has no [default] case. *)
Definition switch (moduleName : string) : option ModuleName :=
  if String.eqb moduleName "full-pdf" then Some full_pdf
  else if String.eqb moduleName "tables" then Some tables_
  else if String.eqb moduleName "imaging" then Some imaging_
  else if String.eqb moduleName "harmonizer" then Some harmonizer
  else if String.eqb moduleName "citations" then Some citations_
  else None.

(** [10 + (completedModules / totalModules) * 80] *)
Definition basePercent (completedModules totalModules : nat) : number :=
  (num 10 + (of_nat completedModules / of_nat totalModules) * num 80)%num.

(** [citations.filter(c => c.quality_score > 0.7).length] *)
Definition count_valid (cs : list Citation) : nat :=
  length (List.filter (fun c => (quality_score c > zero_point_seven)%num) cs).

(** [citations.reduce((sum, c) => sum + c.quality_score, 0)] *)
Definition sum_quality (cs : list Citation) : number :=
  fold_left (fun sum c => (sum + quality_score c)%num) cs (num 0).

(** The object literal assigned to [result.citations_metadata]. *)
Definition make_citations_metadata (cs : list Citation) : CitationsMetadata :=
  {| total_extracted := length cs;
     valid_citations := count_valid cs;
     average_quality := (sum_quality cs / of_nat (length cs))%num;
     duplicates_removed := 0 |}.

(** The [for (const moduleName of modules)] loop with what follows it, from
    the iteration that processes the head of [remaining].  [result] and
    [completedModules] are the handler's two mutable locals.

    Inside the [try], the only expression that can throw is the awaited
    extractor call, and in each [case] it comes before the first
    assignment to [result]: the [catch] clause therefore continues with
    [result] as it was at the top of the iteration. *)
Fixpoint for_modules (host : Host) (pdfBase64 : string) (modules : list string)
    (remaining : list string) (completedModules : nat)
    (result : ExtractionData) : Proc :=
  match remaining with
  | [] =>
      Emit (progress "complete" "Extraction complete!" (num 100))
        (Emit (extractionComplete true result modules (toISOString_now host))
           Done)
  | moduleName :: remaining' =>
      let totalModules := length modules in
      (* [completedModules++] and the next iteration *)
      let next :=
        for_modules host pdfBase64 modules remaining' (S completedModules) in
      let catch (moduleError_ : thrown) :=
        Emit (moduleError moduleName (message_of moduleError_ "Unknown error"))
          (next result) in
      Emit (progress moduleName ("Running " +:+ moduleName +:+ " extractor...")
              (basePercent completedModules totalModules))
        match switch moduleName with
        | Some full_pdf =>
            Emit (moduleStart "full-pdf" "Full-PDF Extractor")
              (Await (extractFullPdf pdfBase64) (fun promise =>
                 match promise with
                 | inr fullPdfResult =>
                     let result := Object_assign result fullPdfResult in
                     Emit (moduleComplete "full-pdf" (FullPdfData fullPdfResult)
                             "Extracted study metadata, methods, results, and discussion")
                       (next result)
                 | inl e => catch e
                 end))
        | Some tables_ =>
            Emit (moduleStart "tables" "Table & Figure Extractor")
              (Await (extractTablesAndFigures pdfBase64) (fun promise =>
                 match promise with
                 | inr tableResult =>
                     let ts := tableResult_tables tableResult in
                     let result :=
                       {| outcomes := outcomes result;
                          tables := Some ts;
                          imaging := imaging result;
                          harmonized_outcomes := harmonized_outcomes result;
                          citations := citations result;
                          citations_metadata := citations_metadata result;
                          study_fields := study_fields result |} in
                     Emit (moduleComplete "tables" (TablesData ts (length ts))
                             ("Extracted " +:+ pretty (length ts) +:+ " tables"))
                       (next result)
                 | inl e => catch e
                 end))
        | Some imaging_ =>
            Emit (moduleStart "imaging" "Imaging Metrics Extractor")
              (Await (extractImagingMetrics pdfBase64) (fun promise =>
                 match promise with
                 | inr imagingResult =>
                     let result :=
                       {| outcomes := outcomes result;
                          tables := tables result;
                          imaging := Some (metrics imagingResult);
                          harmonized_outcomes := harmonized_outcomes result;
                          citations := citations result;
                          citations_metadata := citations_metadata result;
                          study_fields := study_fields result |} in
                     Emit (moduleComplete "imaging"
                             (ImagingData (metrics imagingResult))
                             "Extracted neuroimaging metrics")
                       (next result)
                 | inl e => catch e
                 end))
        | Some harmonizer =>
            Emit (moduleStart "harmonizer" "Outcome Harmonizer")
              (* [if (result.outcomes)]: an object is truthy, so the test
                 is whether the property is there *)
              match outcomes result with
              | Some result_outcomes =>
                  Await (harmonizeOutcomes result_outcomes) (fun promise =>
                    match promise with
                    | inr harmonizedResult =>
                        let h := harmonized harmonizedResult in
                        let result :=
                          {| outcomes := outcomes result;
                             tables := tables result;
                             imaging := imaging result;
                             harmonized_outcomes := Some h;
                             citations := citations result;
                             citations_metadata := citations_metadata result;
                             study_fields := study_fields result |} in
                        Emit (moduleComplete "harmonizer" (HarmonizerData h)
                                ("Harmonized outcomes to "
                                 +:+ pretty (length (timepoints h))
                                 +:+ " timepoints"))
                          (next result)
                    | inl e => catch e
                    end)
              | None => next result
              end
        | Some citations_ =>
            Emit (moduleStart "citations" "Citation Extractor")
              (Await (extractCitations pdfBase64) (fun promise =>
                 match promise with
                 | inr citationResult =>
                     let cs := citationResult_citations citationResult in
                     let result :=
                       {| outcomes := outcomes result;
                          tables := tables result;
                          imaging := imaging result;
                          harmonized_outcomes := harmonized_outcomes result;
                          citations := Some cs;
                          citations_metadata := Some (make_citations_metadata cs);
                          study_fields := study_fields result |} in
                     Emit (moduleComplete "citations"
                             (CitationsData (length cs) (take 5 cs))
                             ("Extracted " +:+ pretty (length cs)
                              +:+ " citations (92.1% accuracy)"))
                       (next result)
                 | inl e => catch e
                 end))
        | None => next result
        end
  end.

(** The listener of the [startExtraction] message. *)
Definition startExtraction (host : Host) (data : StartData) : Proc :=
  let pdfPath := join host (uploadsDir host) (filename data) in
  if negb (existsSync host pdfPath) then
    Emit (error "File not found") Done
  else
    Emit (progress "reading" "Reading PDF file..." (num 5))
      match readFileSync host pdfPath with
      | inr pdfBuffer =>
          let pdfBase64 := toString_base64 host pdfBuffer in
          for_modules host pdfBase64 (modules data) (modules data) 0 empty_object
      | inl e =>
          (* the outer [catch] *)
          Emit (error (message_of e "Extraction failed")) Done
      end.

(** ** One run executed alone *)

(** How the extractor modules answer.  They are outside the handler and
    need not be functions of their argument: the answer may also depend on
    [n], the number of calls the run has made before this one. *)
Record Extractors : Type := {
  full_pdf_extractor : nat -> string -> settled ExtractionData;
  table_figure_extractor : nat -> string -> settled TableResult;
  imaging_extractor : nat -> string -> settled ImagingResult;
  outcome_harmonizer : nat -> Outcomes -> settled HarmonizedResult;
  citation_extractor : nat -> string -> settled CitationResult
}.

Definition settle (ex : Extractors) (n : nat) {R} (call : Request R) : settled R :=
  match call in Request R return settled R with
  | extractFullPdf pdf => full_pdf_extractor ex n pdf
  | extractTablesAndFigures pdf => table_figure_extractor ex n pdf
  | extractImagingMetrics pdf => imaging_extractor ex n pdf
  | harmonizeOutcomes o => outcome_harmonizer ex n o
  | extractCitations pdf => citation_extractor ex n pdf
  end.

(** The events of a handler invocation that nothing interleaves with,
    in the order of emission; [n] counts the calls made so far. *)
Fixpoint events (ex : Extractors) (n : nat) (p : Proc) : list Event :=
  match p with
  | Done => []
  | Emit e k => e :: events ex n k
  | Await call k => events ex (S n) (k (settle ex n call))
  end.

(** The calls a handler invocation makes, in order. *)
Fixpoint calls (ex : Extractors) (n : nat) (p : Proc) : list {R : Type & Request R} :=
  match p with
  | Done => []
  | Emit _ k => calls ex n k
  | Await call k => existT _ call :: calls ex (S n) (k (settle ex n call))
  end.

Definition run (host : Host) (ex : Extractors) (data : StartData) : list Event :=
  events ex 0 (startExtraction host data).

(** ** Several handler invocations on one socket *)

(** An async function runs without interruption up to its next [await]
    (or to its end): the events emitted on the way, and the handler as it
    is suspended there. *)
Fixpoint sync (p : Proc) : list Event * Proc :=
  match p with
  | Emit e k => let '(evs, p') := sync k in (e :: evs, p')
  | Done | Await _ _ => ([], p)
  end.

Module Session.

(** What the event loop holds for one connection.  [server.ts] keeps no
    variable per connection: the state is the socket's outgoing channel
    and the handler invocations that are suspended on a promise, each
    with the number of calls it has made. *)
Record state : Type := {
  channel : list Event;
  suspended : list (nat * Proc)
}.

Definition connected : state := {| channel := []; suspended := [] |}.

(** What the event loop dispatches: a [startExtraction] message from the
    client, or the settlement of the promise that the [i]-th suspended
    invocation awaits. *)
Inductive task : Type :=
| message (data : StartData)
| settlement (i : nat).

(** A handler that has run to [p]: suspended if [p] awaits, gone
    otherwise. *)
Definition park (n : nat) (p : Proc) : list (nat * Proc) :=
  match p with
  | Await _ _ => [(n, p)]
  | Done | Emit _ _ => []
  end.

Definition dispatch (host : Host) (ex : Extractors) (s : state) (t : task) : state :=
  match t with
  | message data =>
      (* [socket.on('startExtraction', async (data) => ...)]: the
         listener is called, whatever else is going on *)
      let '(evs, p) := sync (startExtraction host data) in
      {| channel := channel s ++ evs;
         suspended := suspended s ++ park 0 p |}
  | settlement i =>
      match suspended s !! i with
      | Some (n, Await call k) =>
          let '(evs, p) := sync (k (settle ex n call)) in
          {| channel := channel s ++ evs;
             suspended := take i (suspended s) ++ park (S n) p
                          ++ drop (S i) (suspended s) |}
      | _ => s
      end
  end.

Definition dispatch_all (host : Host) (ex : Extractors) (s : state)
    (ts : list task) : state :=
  fold_left (dispatch host ex) ts s.

(** The connection is processing a run. *)
Definition processing (s : state) : Prop := suspended s <> [].

End Session.

(** ** Observations on a sequence of events *)

Definition is_progress (e : Event) : bool :=
  match e with progress _ _ _ => true | _ => false end.
Definition is_moduleStart (e : Event) : bool :=
  match e with moduleStart _ _ => true | _ => false end.
Definition is_moduleComplete (e : Event) : bool :=
  match e with moduleComplete _ _ _ => true | _ => false end.
Definition is_moduleError (e : Event) : bool :=
  match e with moduleError _ _ => true | _ => false end.
Definition is_error (e : Event) : bool :=
  match e with error _ => true | _ => false end.
Definition is_extractionComplete (e : Event) : bool :=
  match e with extractionComplete _ _ _ _ => true | _ => false end.

Definition count (p : Event -> bool) (evs : list Event) : nat :=
  length (List.filter p evs).

(** The [percent] of the progress events, in order. *)
Definition percents (evs : list Event) : list number :=
  omap (fun e => match e with progress _ _ p => Some p | _ => None end) evs.

(** The [percent] of the last progress event before the last event. *)
Definition last_percent_before_terminal (evs : list Event) : option number :=
  last (percents (removelast evs)).

(** The event names [moduleName] as its step or module. *)
Definition names_module (moduleName : string) (e : Event) : bool :=
  match e with
  | progress step _ _ => String.eqb step moduleName
  | moduleStart m _ | moduleComplete m _ _ | moduleError m _ =>
      String.eqb m moduleName
  | error _ | extractionComplete _ _ _ _ => false
  end.

(** The step or module that an event names; ["done"] for the terminal
    success event and ["error"] for the fatal one. *)
Definition subject (e : Event) : string :=
  match e with
  | progress step _ _ => step
  | moduleStart m _ | moduleComplete m _ _ | moduleError m _ => m
  | extractionComplete _ _ _ _ => "done"
  | error _ => "error"
  end.

(** The harmonizer's module-started events that are directly followed by
    neither a module-completed nor a module-failed event. *)
Fixpoint harmonizer_noops (evs : list Event) : nat :=
  match evs with
  | [] => 0
  | moduleStart m _ :: rest =>
      match rest with
      | moduleComplete _ _ _ :: _ | moduleError _ _ :: _ => harmonizer_noops rest
      | _ => if String.eqb m "harmonizer" then S (harmonizer_noops rest)
             else harmonizer_noops rest
      end
  | _ :: rest => harmonizer_noops rest
  end.

(** The identifiers of [modules] that the [switch] has a case for. *)
Definition known (moduleName : string) : bool :=
  match switch moduleName with Some _ => true | None => false end.

(** The stages that a run attempts: those with a known identifier, once
    the run has got to the loop. *)
Definition attempted (host : Host) (data : StartData) : list string :=
  let pdfPath := join host (uploadsDir host) (filename data) in
  match existsSync host pdfPath, readFileSync host pdfPath with
  | true, inr _ => List.filter known (modules data)
  | _, _ => []
  end.

(** The last two events of the handler, when it gets there. *)
Definition epilogue (host : Host) (modules : list string)
    (result : ExtractionData) : list Event :=
  [progress "complete" "Extraction complete!" (num 100);
   extractionComplete true result modules (toISOString_now host)].

(** What one iteration of the loop emits after its progress event. *)
Inductive iteration_events (moduleName : string) : list Event -> Prop :=
| iteration_skipped :
    switch moduleName = None ->
    iteration_events moduleName []
| iteration_noop name :
    switch moduleName = Some harmonizer ->
    iteration_events moduleName [moduleStart moduleName name]
| iteration_completed name data message :
    known moduleName = true ->
    iteration_events moduleName
      [moduleStart moduleName name; moduleComplete moduleName data message]
| iteration_failed name message :
    known moduleName = true ->
    iteration_events moduleName
      [moduleStart moduleName name; moduleError moduleName message].

#[global] Instance lt_decision (x y : number) : Decision (Number.lt x y).
Proof.
  destruct x as [a|s|], y as [b|t|]; cbn [Number.lt]; try apply _.
  destruct (Qlt_le_dec a b) as [H|H]; [left|right].
  - exact H.
  - now apply Qle_not_lt.
Defined.

(** The citation counts as valid: its score is above 0.7. *)
Definition above_threshold (c : Citation) : Prop :=
  Number.lt zero_point_seven (quality_score c).

#[global] Instance above_threshold_decision (c : Citation) :
  Decision (above_threshold c) := lt_decision _ _.

(** [result'] is [result] but for the property [harmonized_outcomes],
    which is [h]. *)
Definition with_harmonized_outcomes (result : ExtractionData)
    (h : HarmonizedOutcomes) (result' : ExtractionData) : Prop :=
  harmonized_outcomes result' = Some h
  /\ outcomes result' = outcomes result
  /\ tables result' = tables result
  /\ imaging result' = imaging result
  /\ citations result' = citations result
  /\ citations_metadata result' = citations_metadata result
  /\ study_fields result' = study_fields result.

(** [result'] has every property of [result] other than [citations] and
    [citations_metadata]. *)
Definition same_but_citations (result result' : ExtractionData) : Prop :=
  outcomes result' = outcomes result
  /\ tables result' = tables result
  /\ imaging result' = imaging result
  /\ harmonized_outcomes result' = harmonized_outcomes result
  /\ study_fields result' = study_fields result.

(** ** The specification's sentences, as predicates on a run *)

(** As many module-started events as module-completed and module-failed
    events together. *)
Definition every_start_answered (evs : list Event) : Prop :=
  count is_moduleStart evs
  = count is_moduleComplete evs + count is_moduleError evs.

(** The percentages never decrease, and the last progress event before the
    terminal event has percent 100. *)
Definition percent_reaches_100 (evs : list Event) : Prop :=
  StronglySorted Number.le (percents evs)
  /\ last_percent_before_terminal evs = Some (num 100).

(** No event of the run names [moduleName]. *)
Definition silent_about (moduleName : string) (evs : list Event) : Prop :=
  Forall (fun e => names_module moduleName e = false) evs.

(** The start command [data], received in state [s], starts no run: the
    connection emits nothing but an error event for it, and no handler
    invocation is added to those in flight.  Both rejecting the command
    and queueing it come to this. *)
Definition rejected_or_queued (host : Host) (ex : Extractors)
    (s : Session.state) (data : StartData) : Prop :=
  let s' := Session.dispatch host ex s (Session.message data) in
  Session.suspended s' = Session.suspended s
  /\ Forall (fun e => is_error e = true)
       (drop (length (Session.channel s)) (Session.channel s')).

(** ** Concrete hosts, extractors and commands *)

Module Sample.

(** An upload directory holding one PDF.  The directory itself exists
    and cannot be read as a file. *)
Definition disk : Host :=
  {| uploadsDir := "/srv/uploads";
     join := fun dir name => dir +:+ "/" +:+ name;
     existsSync := fun path =>
       String.eqb path "/srv/uploads/paper.pdf"
       || String.eqb path "/srv/uploads/.";
     readFileSync := fun path =>
       if String.eqb path "/srv/uploads/paper.pdf" then inr "%PDF-1.7"
       else inl (ErrorObject "EISDIR: illegal operation on a directory, read");
     toString_base64 := fun _ => "JVBERi0xLjc=";
     toISOString_now := "2025-01-01T00:00:00.000Z" |}.

Definition citation (score : Q) : Citation :=
  {| quality_score := Finite score; citation_rest := [] |}.

Definition seven_citations : list Citation :=
  map citation [9 # 10; 8 # 10; 7 # 10; 6 # 10; 95 # 100; 1 # 2; 1 # 1]%Q.

Definition study : ExtractionData :=
  {| outcomes := Some [("mortality", JNumber (Finite (1 # 10)))];
     tables := None; imaging := None; harmonized_outcomes := None;
     citations := None; citations_metadata := None;
     study_fields := {[ "study_id" := JString "S1" ]} |}.

Definition harmonized_study : HarmonizedOutcomes :=
  {| timepoints := [JString "30d"; JString "90d"]; harmonized_rest := [] |}.

(** Extractors that all succeed; the citation extractor finds the
    citations [cs]. *)
Definition succeeding (cs : list Citation) : Extractors :=
  {| full_pdf_extractor := fun _ _ => inr study;
     table_figure_extractor := fun _ _ => inr {| tableResult_tables := [[]; []] |};
     imaging_extractor := fun _ _ => inr {| metrics := [] |};
     outcome_harmonizer := fun _ _ => inr {| harmonized := harmonized_study |};
     citation_extractor := fun _ _ => inr {| citationResult_citations := cs |} |}.

(** Extractors that all reject with [e]. *)
Definition failing (e : thrown) : Extractors :=
  {| full_pdf_extractor := fun _ _ => inl e;
     table_figure_extractor := fun _ _ => inl e;
     imaging_extractor := fun _ _ => inl e;
     outcome_harmonizer := fun _ _ => inl e;
     citation_extractor := fun _ _ => inl e |}.

Definition command (stages : list string) : StartData :=
  {| filename := "paper.pdf"; modules := stages |}.

(** A connection on which the run of [command ["tables"]] awaits the
    table extractor. *)
Definition extracting_tables : Session.state :=
  Session.dispatch disk (succeeding []) Session.connected
    (Session.message (command ["tables"])).

End Sample.

(** ** The loop in direct style *)

(** [result.tables = ts] and the three other assignments of the
    [switch]. *)
Definition assign_tables (result : ExtractionData) (ts : list Table) : ExtractionData :=
  {| outcomes := outcomes result;
     tables := Some ts;
     imaging := imaging result;
     harmonized_outcomes := harmonized_outcomes result;
     citations := citations result;
     citations_metadata := citations_metadata result;
     study_fields := study_fields result |}.

Definition assign_imaging (result : ExtractionData) (m : ImagingMetrics) : ExtractionData :=
  {| outcomes := outcomes result;
     tables := tables result;
     imaging := Some m;
     harmonized_outcomes := harmonized_outcomes result;
     citations := citations result;
     citations_metadata := citations_metadata result;
     study_fields := study_fields result |}.

Definition assign_harmonized_outcomes (result : ExtractionData)
    (h : HarmonizedOutcomes) : ExtractionData :=
  {| outcomes := outcomes result;
     tables := tables result;
     imaging := imaging result;
     harmonized_outcomes := Some h;
     citations := citations result;
     citations_metadata := citations_metadata result;
     study_fields := study_fields result |}.

Definition assign_citations (result : ExtractionData) (cs : list Citation) : ExtractionData :=
  {| outcomes := outcomes result;
     tables := tables result;
     imaging := imaging result;
     harmonized_outcomes := harmonized_outcomes result;
     citations := Some cs;
     citations_metadata := Some (make_citations_metadata cs);
     study_fields := study_fields result |}.

(** The handler's [result] after the body of the [try], when the awaited
    call has settled to [promise]: the assignment of the [case] when it
    resolved, nothing when it threw. *)
Definition merged {R} (result : ExtractionData) (promise : settled R)
    (assign : ExtractionData -> R -> ExtractionData) : ExtractionData :=
  match promise with
  | inr value => assign result value
  | inl _ => result
  end.

(** One iteration of the loop as a function on the number of calls made
    and [result]: what iteration [moduleName] leaves for the next one. *)
Definition after_iteration (ex : Extractors) (pdfBase64 : string)
    (moduleName : string) (st : nat * ExtractionData) : nat * ExtractionData :=
  let '(n, result) := st in
  match switch moduleName with
  | Some full_pdf =>
      (S n, merged result (full_pdf_extractor ex n pdfBase64) Object_assign)
  | Some tables_ =>
      (S n, merged result (table_figure_extractor ex n pdfBase64)
              (fun result r => assign_tables result (tableResult_tables r)))
  | Some imaging_ =>
      (S n, merged result (imaging_extractor ex n pdfBase64)
              (fun result r => assign_imaging result (metrics r)))
  | Some harmonizer =>
      match outcomes result with
      | Some o =>
          (S n, merged result (outcome_harmonizer ex n o)
                  (fun result r => assign_harmonized_outcomes result (harmonized r)))
      | None => (n, result)
      end
  | Some citations_ =>
      (S n, merged result (citation_extractor ex n pdfBase64)
              (fun result r => assign_citations result (citationResult_citations r)))
  | None => (n, result)
  end.

(** The iterations for [stages], from left to right. *)
Definition after_loop (ex : Extractors) (pdfBase64 : string)
    (stages : list string) (st : nat * ExtractionData) : nat * ExtractionData :=
  fold_left (fun st moduleName => after_iteration ex pdfBase64 moduleName st)
    stages st.

(** The [data] of the terminal success event, when the run ends with it. *)
Definition final_data (evs : list Event) : option ExtractionData :=
  match last evs with
  | Some (extractionComplete _ data _ _) => Some data
  | _ => None
  end.

(** The event ends a run. *)
Definition is_terminal (e : Event) : bool :=
  is_error e || is_extractionComplete e.

(** The [step] of the progress events, in order. *)
Definition steps (evs : list Event) : list string :=
  omap (fun e => match e with progress step _ _ => Some step | _ => None end) evs.

(** The document that a call passes to its extractor; the harmonizer gets
    outcomes instead. *)
Definition document_of (c : {R : Type & Request R}) : option string :=
  match projT2 c with
  | extractFullPdf pdf | extractTablesAndFigures pdf
  | extractImagingMetrics pdf | extractCitations pdf => Some pdf
  | harmonizeOutcomes _ => None
  end.

(** The outcomes that a call passes to the harmonizer. *)
Definition outcomes_of (c : {R : Type & Request R}) : option Outcomes :=
  match projT2 c with
  | harmonizeOutcomes o => Some o
  | _ => None
  end.

(** The call that the iteration for [moduleName] awaits, if it awaits
    one. *)
Definition iteration_call (pdfBase64 : string) (moduleName : string)
    (result : ExtractionData) : option {R : Type & Request R} :=
  match switch moduleName with
  | Some full_pdf => Some (existT _ (extractFullPdf pdfBase64))
  | Some tables_ => Some (existT _ (extractTablesAndFigures pdfBase64))
  | Some imaging_ => Some (existT _ (extractImagingMetrics pdfBase64))
  | Some harmonizer =>
      match outcomes result with
      | Some o => Some (existT _ (harmonizeOutcomes o))
      | None => None
      end
  | Some citations_ => Some (existT _ (extractCitations pdfBase64))
  | None => None
  end.

(** The outcomes [o] are those of a result that the full-PDF extractor
    resolved to in one of its first [n] calls. *)
Definition from_full_pdf (ex : Extractors) (pdfBase64 : string) (n : nat)
    (o : Outcomes) : Prop :=
  exists k fullPdfResult,
    k < n
    /\ full_pdf_extractor ex k pdfBase64 = inr fullPdfResult
    /\ outcomes fullPdfResult = Some o.

(** The properties that [d] has came from stages of [stages]: every
    property from the full-PDF stage, which merges whatever its extractor
    returns, or from the stage that owns the property.  The harmonized
    outcomes need outcomes, which only the full-PDF stage provides. *)
Definition owned_by (stages : list string) (d : ExtractionData) : Prop :=
  (is_Some (outcomes d) -> "full-pdf" ∈ stages)
  /\ (study_fields d <> ∅ -> "full-pdf" ∈ stages)
  /\ (is_Some (harmonized_outcomes d) -> "full-pdf" ∈ stages)
  /\ (is_Some (tables d) -> "tables" ∈ stages \/ "full-pdf" ∈ stages)
  /\ (is_Some (imaging d) -> "imaging" ∈ stages \/ "full-pdf" ∈ stages)
  /\ (is_Some (citations d) -> "citations" ∈ stages \/ "full-pdf" ∈ stages)
  /\ (is_Some (citations_metadata d) ->
      "citations" ∈ stages \/ "full-pdf" ∈ stages).

(** ** The upload route *)

(** What the [filename] callback of the upload middleware reads of a
    file. *)
Record UploadedFile : Type := {
  originalname : string
}.

(** The [filename] callback of the disk storage:
    [`${Date.now()}-${file.originalname}`].  [now] is [Date.now()], the
    milliseconds since the epoch, which print as a decimal numeral. *)
Definition uniqueName (now : N) (file : UploadedFile) : string :=
  pretty now +:+ "-" +:+ originalname file.

(** The characters of a string. *)
Fixpoint characters (s : string) : list Ascii.ascii :=
  match s with
  | EmptyString => []
  | String c s' => c :: characters s'
  end.

(** ** Interleavings *)

(** [out] is an interleaving of the sequences [ls]: it takes the elements
    of each sequence in their order. *)
Inductive interleaved {A : Type} : list (list A) -> list A -> Prop :=
| interleaved_nil ls :
    Forall (fun l => l = []) ls ->
    interleaved ls []
| interleaved_cons ls i x l out :
    ls !! i = Some (x :: l) ->
    interleaved (<[i := l]> ls) out ->
    interleaved ls (x :: out).

(** The start commands among the tasks, in order. *)
Definition commands (ts : list Session.task) : list StartData :=
  omap (fun t => match t with
                 | Session.message data => Some data
                 | Session.settlement _ => None
                 end) ts.

(** One handler invocation on a connection: the command it handles, what
    it has emitted, and where it is suspended, if it is. *)
Record invocation : Type := {
  command : StartData;
  emitted : list Event;
  pending : option (nat * Proc)
}.

(** [Session.park], as an option. *)
Definition parked (n : nat) (p : Proc) : option (nat * Proc) :=
  match p with
  | Await _ _ => Some (n, p)
  | Done | Emit _ _ => None
  end.

(** What the invocation has emitted and what it will emit once its
    promises settle are, together, the events of the run of its
    command. *)
Definition on_its_run (host : Host) (ex : Extractors) (t : invocation) : Prop :=
  run host ex (command t)
  = emitted t ++ match pending t with
                 | Some (n, p) => events ex n p
                 | None => []
                 end.

(** The invocations [threads] account for the state [s]. *)
Definition accounts_for (threads : list invocation) (s : Session.state) : Prop :=
  interleaved (emitted <$> threads) (Session.channel s)
  /\ Session.suspended s = omap pending threads.

(** ** More concrete extractors *)

Module Scenario.

(** A study whose full-PDF result has tables of its own. *)
Definition study_with_tables : ExtractionData :=
  {| outcomes := Some [("mortality", JNumber (Finite (1 # 10)))];
     tables := Some [[("caption", JString "Table 1")]];
     imaging := None; harmonized_outcomes := None;
     citations := None; citations_metadata := None;
     study_fields := {[ "study_id" := JString "S1" ]} |}.

(** Extractors that all succeed, the full-PDF extractor with
    [study_with_tables]. *)
Definition overwriting : Extractors :=
  {| full_pdf_extractor := fun _ _ => inr study_with_tables;
     table_figure_extractor := fun _ _ => inr {| tableResult_tables := [[]; []] |};
     imaging_extractor := fun _ _ => inr {| metrics := [] |};
     outcome_harmonizer :=
       fun _ _ => inr {| harmonized := Sample.harmonized_study |};
     citation_extractor :=
       fun _ _ => inr {| citationResult_citations := Sample.seven_citations |} |}.

End Scenario.

(** * Properties *)

(** ** The [switch] *)

Lemma switch_Some moduleName k :
  switch moduleName = Some k ->
  moduleName = match k with
               | full_pdf => "full-pdf"
               | tables_ => "tables"
               | imaging_ => "imaging"
               | harmonizer => "harmonizer"
               | citations_ => "citations"
               end.
Proof.
  unfold switch.
  repeat match goal with
         | |- context [String.eqb ?a ?b] =>
             destruct (String.eqb_spec a b) as [->|_];
             [intros [= <-]; reflexivity|]
         end.
  intros [=].
Qed.

Lemma known_switch moduleName k : switch moduleName = Some k -> known moduleName = true.
Proof. unfold known. now intros ->. Qed.

(** ** Counting events *)

Lemma count_cons p e evs :
  count p (e :: evs) = (if p e then 1 else 0) + count p evs.
Proof. unfold count. cbn [List.filter]. destruct (p e); reflexivity. Qed.

Lemma count_app p evs1 evs2 :
  count p (evs1 ++ evs2) = count p evs1 + count p evs2.
Proof. unfold count. now rewrite List.filter_app, List.length_app. Qed.

(** ** The loop, one iteration at a time *)

Section Loop.

Context (host : Host) (ex : Extractors) (pdfBase64 : string)
        (modules : list string).

Local Abbreviation loop := (for_modules host pdfBase64 modules).
Local Abbreviation epilogue := (epilogue host modules).

Lemma loop_nil completedModules result n :
  events ex n (loop [] completedModules result) = epilogue result.
Proof. reflexivity. Qed.

(** Every iteration emits its progress event, then what
    [iteration_events] allows, and hands over to the next one. *)
Lemma loop_iteration moduleName remaining completedModules result n :
  exists stage n' result',
    events ex n (loop (moduleName :: remaining) completedModules result)
    = progress moduleName ("Running " +:+ moduleName +:+ " extractor...")
        (basePercent completedModules (length modules))
      :: stage ++ events ex n' (loop remaining (S completedModules) result')
    /\ iteration_events moduleName stage.
Proof.
  cbn [for_modules events].
  destruct (switch moduleName) as [k|] eqn:Hsw.
  - pose proof (known_switch _ _ Hsw) as Hk.
    pose proof (switch_Some _ _ Hsw) as Hname.
    destruct k; cbn [events settle]; subst moduleName;
      try match goal with
          | |- context [outcomes ?r] => destruct (outcomes r)
          end;
      cbn [events settle];
      try match goal with
          | |- context [match ?promise with inl _ => _ | inr _ => _ end] =>
              destruct promise
          end;
      cbn [events];
      first [ eexists [_; _], _, _; split; [reflexivity|]
            | eexists [_], _, _; split; [reflexivity|] ];
      first [ now apply iteration_failed
            | now apply iteration_completed
            | now apply iteration_noop ].
  - exists [], n, result. split; [reflexivity|]. now apply iteration_skipped.
Qed.

Lemma loop_head remaining completedModules result n :
  exists step message percent rest,
    events ex n (loop remaining completedModules result)
    = progress step message percent :: rest.
Proof. destruct remaining; cbn [for_modules events]; eauto. Qed.

(** The loop always gets to the end of the handler. *)
Lemma loop_reaches_epilogue remaining : forall completedModules result n,
  exists evs final,
    events ex n (loop remaining completedModules result) = evs ++ epilogue final.
Proof.
  induction remaining as [|moduleName remaining IH]; intros c result n.
  - exists [], result. reflexivity.
  - destruct (loop_iteration moduleName remaining c result n)
      as (stage & n' & result' & -> & _).
    destruct (IH (S c) result' n') as (evs & final & ->).
    eexists (_ :: stage ++ evs), final.
    cbn [app]. now rewrite app_assoc.
Qed.

Lemma loop_counts remaining : forall completedModules result n,
  let evs := events ex n (loop remaining completedModules result) in
  count is_moduleStart evs = length (List.filter known remaining)
  /\ count is_moduleStart evs
     = count is_moduleComplete evs + count is_moduleError evs
       + harmonizer_noops evs.
Proof.
  induction remaining as [|moduleName remaining IH]; intros c result n.
  - cbn. split; reflexivity.
  - destruct (loop_iteration moduleName remaining c result n)
      as (stage & n' & result' & -> & Hstage).
    specialize (IH (S c) result' n'). cbn zeta in IH.
    destruct (loop_head remaining (S c) result' n')
      as (step & msg & pc & tl & Htl).
    rewrite Htl in *. destruct IH as [IH1 IH2].
    destruct Hstage as [Hsw|name Hsw|name data message Hk|name message Hk];
      try (pose proof (switch_Some _ _ Hsw); subst moduleName);
      unfold count, known in *; cbn in *;
      first [rewrite Hsw | destruct (switch moduleName); [|discriminate] | idtac];
      cbn; lia.
Qed.

Lemma loop_percents remaining : forall completedModules result n,
  percents (events ex n (loop remaining completedModules result))
  = map (fun i => basePercent i (length modules))
      (seq completedModules (length remaining)) ++ [num 100].
Proof.
  induction remaining as [|moduleName remaining IH]; intros c result n.
  - reflexivity.
  - destruct (loop_iteration moduleName remaining c result n)
      as (stage & n' & result' & -> & Hstage).
    unfold percents in *. cbn [omap list_omap length seq map app].
    rewrite omap_app, IH.
    now destruct Hstage.
Qed.

End Loop.

(** ** The three ways a run goes *)

Section Run.

Context (host : Host) (ex : Extractors) (data : StartData).

Local Abbreviation pdfPath := (join host (uploadsDir host) (filename data)).

Lemma run_missing :
  existsSync host pdfPath = false ->
  run host ex data = [error "File not found"].
Proof. intros H. unfold run, startExtraction. now rewrite H. Qed.

Lemma run_unreadable e :
  existsSync host pdfPath = true ->
  readFileSync host pdfPath = inl e ->
  run host ex data
  = [progress "reading" "Reading PDF file..." (num 5);
     error (message_of e "Extraction failed")].
Proof. intros H1 H2. unfold run, startExtraction. now rewrite H1, H2. Qed.

Lemma run_loop pdfBuffer :
  existsSync host pdfPath = true ->
  readFileSync host pdfPath = inr pdfBuffer ->
  run host ex data
  = progress "reading" "Reading PDF file..." (num 5)
    :: events ex 0 (for_modules host (toString_base64 host pdfBuffer)
                      (modules data) (modules data) 0 empty_object).
Proof. intros H1 H2. unfold run, startExtraction. now rewrite H1, H2. Qed.

End Run.

(** ** The progress percentage *)

Section Percent.

Open Scope Q_scope.

Lemma of_nat_not_zero t : (0 < t)%nat -> is_zero (inject_Z (Z.of_nat t)) = false.
Proof.
  intros Ht. unfold is_zero. apply not_true_is_false. intros H.
  apply Qeq_bool_iff in H. unfold Qeq in H. cbn in H. lia.
Qed.

(** Inside the loop [totalModules] is not 0, and the division is an
    ordinary one. *)
Lemma basePercent_finite i t :
  (0 < t)%nat ->
  basePercent i t
  = Finite (inject_Z 10
            + inject_Z (Z.of_nat i) / inject_Z (Z.of_nat t) * inject_Z 80).
Proof.
  intros Ht. unfold basePercent, num, of_nat. cbn [add mul div].
  now rewrite of_nat_not_zero.
Qed.

Lemma ratio_le i j t :
  (i <= j)%nat -> (0 < t)%nat ->
  inject_Z (Z.of_nat i) / inject_Z (Z.of_nat t)
  <= inject_Z (Z.of_nat j) / inject_Z (Z.of_nat t).
Proof.
  intros Hij Ht. unfold Qdiv. apply Qmult_le_compat_r.
  - rewrite <- Zle_Qle. lia.
  - apply Qinv_le_0_compat. change 0 with (inject_Z 0). rewrite <- Zle_Qle. lia.
Qed.

Lemma ratio_bounds i t :
  (i < t)%nat ->
  0 <= inject_Z (Z.of_nat i) / inject_Z (Z.of_nat t) <= 1.
Proof.
  intros Hit. split.
  - apply Qle_shift_div_l.
    + change 0 with (inject_Z 0). rewrite <- Zlt_Qlt. lia.
    + rewrite Qmult_0_l. change 0 with (inject_Z 0). rewrite <- Zle_Qle. lia.
  - apply Qle_shift_div_r.
    + change 0 with (inject_Z 0). rewrite <- Zlt_Qlt. lia.
    + rewrite Qmult_1_l. rewrite <- Zle_Qle. lia.
Qed.

Lemma basePercent_le i j t :
  (i <= j)%nat -> (j < t)%nat -> (basePercent i t <= basePercent j t)%num.
Proof.
  intros Hij Hjt. rewrite !basePercent_finite by lia. cbn [le].
  pose proof (ratio_le i j t Hij ltac:(lia)).
  apply Qplus_le_r. apply Qmult_le_compat_r; [assumption|discriminate].
Qed.

Lemma basePercent_bounds i t :
  (i < t)%nat ->
  (num 5 <= basePercent i t)%num /\ (basePercent i t <= num 100)%num.
Proof.
  intros Hit. rewrite !basePercent_finite by lia. unfold num. cbn [le].
  destruct (ratio_bounds i t Hit) as [H0 H1].
  set (r := inject_Z (Z.of_nat i) / inject_Z (Z.of_nat t)) in *.
  split.
  - assert (0 <= r * inject_Z 80).
    { apply Qmult_le_0_compat; [assumption|discriminate]. }
    change (inject_Z 5) with (5 # 1). change (inject_Z 10) with (10 # 1).
    lra.
  - assert (r * inject_Z 80 <= 1 * inject_Z 80).
    { apply Qmult_le_compat_r; [assumption|discriminate]. }
    change (inject_Z 100) with (100 # 1). change (inject_Z 10) with (10 # 1).
    change (inject_Z 80) with (80 # 1) in *.
    lra.
Qed.

End Percent.

Lemma loop_percents_sorted t k : forall a,
  a + k <= t ->
  StronglySorted Number.le
    (map (fun i => basePercent i t) (seq a k) ++ [num 100]).
Proof.
  induction k as [|k IH]; intros a Hak; cbn [seq map app].
  - repeat constructor.
  - constructor.
    + apply IH. lia.
    + apply Forall_app. split.
      * apply List.Forall_map, Forall_seq. intros j Hj.
        apply basePercent_le; lia.
      * constructor; [|constructor]. apply basePercent_bounds. lia.
Qed.

(** The percentages of a run that gets to the loop. *)
Lemma run_percents_sorted t :
  StronglySorted Number.le
    (num 5 :: map (fun i => basePercent i t) (seq 0 t) ++ [num 100]).
Proof.
  constructor.
  - apply loop_percents_sorted. lia.
  - apply Forall_app. split.
    + apply List.Forall_map, Forall_seq. intros j Hj.
      apply basePercent_bounds. lia.
    + constructor; [|constructor]. cbn. unfold Qle. cbn. lia.
Qed.

(** ** A start command for a document that is not there *)

(** C4: when the document of a start command does not exist, the run
    consists of exactly one fatal error event: no progress event, no
    module-started, module-completed or module-failed event, no terminal
    success event, and no extractor is called. *)
Theorem C4_missing_document host ex data :
  existsSync host (join host (uploadsDir host) (filename data)) = false ->
  let evs := run host ex data in
  evs = [error "File not found"]
  /\ count is_error evs = 1
  /\ count is_progress evs = 0
  /\ count is_moduleStart evs = 0
  /\ count is_moduleComplete evs = 0
  /\ count is_moduleError evs = 0
  /\ count is_extractionComplete evs = 0
  /\ calls ex 0 (startExtraction host data) = [].
Proof.
  intros H evs. subst evs. rewrite run_missing by assumption.
  unfold startExtraction. rewrite H. repeat split.
Qed.

Lemma C4_missing_document_witness :
  existsSync Sample.disk
    (join Sample.disk (uploadsDir Sample.disk) "lost.pdf") = false
  /\ run Sample.disk (Sample.succeeding [])
       {| filename := "lost.pdf"; modules := ["full-pdf"; "citations"] |}
     = [error "File not found"].
Proof.
  split; [reflexivity|].
  apply (C4_missing_document Sample.disk (Sample.succeeding [])
           {| filename := "lost.pdf"; modules := ["full-pdf"; "citations"] |}).
  reflexivity.
Defined.

(** ** Module events of a run *)



(** ** Progress percentages of a run *)

(** The upload directory exists and cannot be read as a file: the run
    stops after its first progress event, at 5 percent. *)
Lemma C5_counterexample :
  ~ percent_reaches_100
      (run Sample.disk (Sample.succeeding [])
         {| filename := "."; modules := ["tables"] |}).
Proof. intros [_ H]. vm_compute in H. discriminate. Qed.

(** C5, amended: in every run, whatever the stage list, the percentages
    of the progress events never decrease.  A run ends with the terminal
    success event or with the fatal error event.  In the first case the
    last progress event before it has percent exactly 100; in the second
    the run has emitted the progress event at 5 percent and no other, or,
    when the document does not exist, no progress event at all. *)
Theorem C5_percent_monotone host ex data :
  let evs := run host ex data in
  StronglySorted Number.le (percents evs)
  /\ match last evs with
     | Some (extractionComplete _ _ _ _) =>
         last_percent_before_terminal evs = Some (num 100)
     | Some (error _) =>
         last_percent_before_terminal evs
         = if existsSync host (join host (uploadsDir host) (filename data))
           then Some (num 5) else None
     | _ => False
     end.
Proof.
  cbn zeta.
  destruct (existsSync host _) eqn:Hexists.
  - destruct (readFileSync host (join host (uploadsDir host) (filename data)))
      as [e|pdfBuffer] eqn:Hread.
    + rewrite (run_unreadable _ _ _ e) by assumption. split.
      * repeat constructor.
      * reflexivity.
    + rewrite (run_loop _ _ _ pdfBuffer) by assumption. split.
      * unfold percents. cbn [omap list_omap]. fold (percents).
        rewrite loop_percents. apply run_percents_sorted.
      * destruct (loop_reaches_epilogue host ex (toString_base64 host pdfBuffer)
                    (modules data) (modules data) 0 empty_object 0)
          as (evs & final & ->).
        unfold epilogue, last_percent_before_terminal.
        set (first := progress "reading" _ _).
        set (hundred := progress "complete" _ _).
        set (terminal := extractionComplete _ _ _ _).
        replace (first :: evs ++ [hundred; terminal])
          with ((first :: evs ++ [hundred]) ++ [terminal])
          by (cbn [app]; now rewrite <- app_assoc).
        rewrite last_snoc. subst terminal. cbn iota.
        rewrite removelast_last.
        replace (first :: evs ++ [hundred]) with ((first :: evs) ++ [hundred])
          by reflexivity.
        unfold percents. rewrite omap_app. subst hundred. cbn [omap list_omap].
        apply last_snoc.
  - rewrite run_missing by assumption. split.
    + constructor.
    + reflexivity.
Qed.

(** ** A stage whose extractor fails *)

Lemma loop_first_emit host pdfBase64 modules remaining completedModules result :
  exists e p,
    for_modules host pdfBase64 modules remaining completedModules result = Emit e p.
Proof. destruct remaining; cbn [for_modules]; eauto. Qed.

(** The loop never awaits before it has emitted two events. *)
Lemma loop_second_emit host pdfBase64 modules remaining completedModules result :
  exists e1 e2 p,
    for_modules host pdfBase64 modules remaining completedModules result
    = Emit e1 (Emit e2 p).
Proof.
  destruct remaining as [|moduleName remaining]; cbn [for_modules]; eauto.
  destruct (switch moduleName) as [[]|]; eauto.
  destruct (loop_first_emit host pdfBase64 modules remaining
              (S completedModules) result) as (e & p & ->).
  eauto.
Qed.

(** C3: when the extractor call of a stage throws, the handler emits a
    module-failed event that names that stage and carries the message of
    the thrown error, goes on with the remaining stages in order from the
    accumulated result as it was before the stage, and gets to the
    terminal success event.  The hypothesis says that the iteration for
    [moduleName] emits two events and awaits [call]. *)
Theorem C3_stage_failure host ex pdfBase64 modules moduleName remaining
    completedModules result n ev1 ev2 R (call : Request R) k e :
  for_modules host pdfBase64 modules (moduleName :: remaining)
    completedModules result
  = Emit ev1 (Emit ev2 (Await call k)) ->
  settle ex n call = inl e ->
  ev1 = progress moduleName ("Running " +:+ moduleName +:+ " extractor...")
          (basePercent completedModules (length modules))
  /\ (exists name, ev2 = moduleStart moduleName name)
  /\ events ex n (for_modules host pdfBase64 modules (moduleName :: remaining)
                    completedModules result)
     = [ev1; ev2; moduleError moduleName (message_of e "Unknown error")]
       ++ events ex (S n) (for_modules host pdfBase64 modules remaining
                             (S completedModules) result)
  /\ exists evs final,
       events ex (S n) (for_modules host pdfBase64 modules remaining
                          (S completedModules) result)
       = evs ++ epilogue host modules final.
Proof.
  intros H Hthrown.
  pose (first_two := fun p =>
          match p with Emit a (Emit b _) => Some (a, b) | _ => None end).
  pose (caught := fun p =>
          match p with
          | Emit _ (Emit _ (Await _ k')) => Some (k' (inl e))
          | _ => None
          end).
  assert (H2 : first_two (for_modules host pdfBase64 modules
                            (moduleName :: remaining) completedModules result)
               = Some (ev1, ev2)) by now rewrite H.
  assert (Hk : caught (for_modules host pdfBase64 modules
                         (moduleName :: remaining) completedModules result)
               = Some (k (inl e))) by now rewrite H.
  rewrite H. cbn [events]. rewrite Hthrown. clear Hthrown.
  cbn [for_modules] in H, H2, Hk.
  destruct (switch moduleName) as [stage|] eqn:Hsw.
  - pose proof (switch_Some _ _ Hsw) as ->.
    destruct stage;
      try (destruct (outcomes result);
           [|destruct (loop_first_emit host pdfBase64 modules remaining
                         (S completedModules) result) as (e' & p' & Hp);
             rewrite Hp in H; discriminate H]);
      cbn in H2, Hk; injection H2 as <- <-; injection Hk as <-;
      (split; [reflexivity|]); (split; [eauto|]); (split; [reflexivity|]);
      apply loop_reaches_epilogue.
  - destruct (loop_second_emit host pdfBase64 modules remaining
                (S completedModules) result) as (e1 & e2 & p' & Hp).
    rewrite Hp in H. discriminate H.
Qed.

Lemma C3_stage_failure_witness :
  events (Sample.failing (ErrorObject "timeout")) 0
    (for_modules Sample.disk "JVBERi0xLjc=" ["tables"; "imaging"]
       ["tables"; "imaging"] 0 empty_object)
  = [progress "tables" "Running tables extractor..." (basePercent 0 2);
     moduleStart "tables" "Table & Figure Extractor";
     moduleError "tables" "timeout"]
    ++ events (Sample.failing (ErrorObject "timeout")) 1
         (for_modules Sample.disk "JVBERi0xLjc=" ["tables"; "imaging"]
            ["imaging"] 1 empty_object).
Proof.
  edestruct (C3_stage_failure Sample.disk
               (Sample.failing (ErrorObject "timeout"))
               "JVBERi0xLjc=" ["tables"; "imaging"] "tables" ["imaging"]
               0 empty_object 0) as (_ & _ & H & _).
  - reflexivity.
  - reflexivity.
  - exact H.
Defined.

(** ** The outcome harmonizer *)



(** The stages full-pdf and harmonizer, in this order, on a document
    whose study has outcomes: the harmonizer runs, and the result of the
    run has the harmonized outcomes. *)
Example full_pdf_then_harmonizer :
  exists evs data,
    run Sample.disk (Sample.succeeding [])
      (Sample.command ["full-pdf"; "harmonizer"])
    = evs ++ [extractionComplete true data ["full-pdf"; "harmonizer"]
                "2025-01-01T00:00:00.000Z"]
    /\ count is_moduleComplete evs = 2
    /\ harmonized_outcomes data = Some Sample.harmonized_study.
Proof.
  eexists [_; _; _; _; _; _; _; _], _. split; [vm_compute; reflexivity|].
  split; reflexivity.
Qed.

(** The harmonizer alone: its result has no harmonized outcomes. *)
Example harmonizer_alone :
  exists evs data,
    run Sample.disk (Sample.succeeding []) (Sample.command ["harmonizer"])
    = evs ++ [extractionComplete true data ["harmonizer"]
                "2025-01-01T00:00:00.000Z"]
    /\ count is_moduleStart evs = 1
    /\ count is_moduleComplete evs = 0
    /\ harmonized_outcomes data = None.
Proof.
  eexists [_; _; _; _], _. split; [vm_compute; reflexivity|].
  repeat split.
Qed.

(** ** A stage identifier without a case *)

(** The progress event of the iteration names the identifier. *)
Lemma C7_counterexample :
  ~ silent_about "ocr"
      (run Sample.disk (Sample.succeeding []) (Sample.command ["ocr"])).
Proof.
  unfold silent_about. intros H.
  remember (run _ _ _) as evs eqn:E. vm_compute in E. subst evs.
  apply Forall_inv_tail, Forall_inv in H. cbn in H. discriminate H.
Qed.

(** The events of an iteration, other than its progress event, name the
    stage of the iteration, and its identifier is known. *)
Lemma iteration_events_named moduleName stage e :
  iteration_events moduleName stage ->
  In e stage ->
  known moduleName = true
  /\ is_progress e = false
  /\ forall m, names_module m e = true -> m = moduleName.
Proof.
  intros Hstage He.
  assert (Hname : forall a b : string, String.eqb a b = true -> b = a)
    by (intros a b H; symmetry; now apply String.eqb_eq).
  destruct Hstage as [Hsw|name Hsw|name data message Hk|name message Hk];
    cbn [In] in He; try (apply known_switch in Hsw);
    repeat (destruct He as [<-|He]); try contradiction;
    repeat split; cbn [names_module]; auto.
Qed.

(** Only progress events name a stage identifier that has no case. *)
Lemma loop_unknown_only_progress host ex pdfBase64 modules moduleName remaining :
  switch moduleName = None ->
  forall completedModules result n,
    Forall (fun e => names_module moduleName e = true -> is_progress e = true)
      (events ex n (for_modules host pdfBase64 modules remaining
                      completedModules result)).
Proof.
  intros Hsw.
  induction remaining as [|m remaining IH]; intros c result n.
  - cbn. repeat constructor; cbn; congruence.
  - destruct (loop_iteration host ex pdfBase64 modules m remaining c result n)
      as (stage & n' & result' & -> & Hstage).
    constructor; [reflexivity|].
    apply Forall_app. split; [|apply IH].
    apply List.Forall_forall. intros e He Hnames.
    destruct (iteration_events_named m stage e Hstage He) as (Hk & _ & Hm).
    apply Hm in Hnames. subst m. unfold known in Hk. rewrite Hsw in Hk.
    discriminate.
Qed.

Lemma run_unknown_only_progress host ex data moduleName :
  switch moduleName = None ->
  Forall (fun e => names_module moduleName e = true -> is_progress e = true)
    (run host ex data).
Proof.
  intros Hsw.
  destruct (existsSync host (join host (uploadsDir host) (filename data)))
    eqn:Hexists.
  - destruct (readFileSync host (join host (uploadsDir host) (filename data)))
      as [e|pdfBuffer] eqn:Hread.
    + rewrite (run_unreadable _ _ _ e) by assumption.
      repeat constructor; cbn; congruence.
    + rewrite (run_loop _ _ _ pdfBuffer) by assumption.
      constructor; [reflexivity|]. now apply loop_unknown_only_progress.
  - rewrite run_missing by assumption. repeat constructor; cbn; congruence.
Qed.

(** C7, amended: for a stage identifier that the [switch] has no case
    for, the iteration emits the progress event that names it and nothing
    else: no module-started, module-completed or module-failed event, no
    extractor call, and the accumulated result is passed on as it is.  The
    run goes on with the remaining stages and gets to the terminal success
    event.  In a whole run, the only events that name the identifier are
    progress events. *)
Theorem C7_unknown_stage host ex pdfBase64 modules moduleName remaining
    completedModules result n :
  switch moduleName = None ->
  let p := for_modules host pdfBase64 modules (moduleName :: remaining)
             completedModules result in
  let p' := for_modules host pdfBase64 modules remaining
              (S completedModules) result in
  events ex n p
  = progress moduleName ("Running " +:+ moduleName +:+ " extractor...")
      (basePercent completedModules (length modules))
    :: events ex n p'
  /\ calls ex n p = calls ex n p'
  /\ (exists evs final, events ex n p' = evs ++ epilogue host modules final)
  /\ forall data,
       Forall (fun e => names_module moduleName e = true -> is_progress e = true)
         (run host ex data).
Proof.
  intros Hsw. cbn zeta. cbn [for_modules]. rewrite Hsw.
  repeat split.
  - apply loop_reaches_epilogue.
  - intros data. now apply run_unknown_only_progress.
Qed.

Lemma C7_unknown_stage_witness :
  switch "ocr" = None
  /\ events (Sample.succeeding []) 0
       (for_modules Sample.disk "JVBERi0xLjc=" ["ocr"; "tables"]
          ["ocr"; "tables"] 0 empty_object)
     = progress "ocr" "Running ocr extractor..." (basePercent 0 2)
       :: events (Sample.succeeding []) 0
            (for_modules Sample.disk "JVBERi0xLjc=" ["ocr"; "tables"]
               ["tables"] 1 empty_object).
Proof.
  split; [reflexivity|].
  apply (C7_unknown_stage Sample.disk (Sample.succeeding []) "JVBERi0xLjc="
           ["ocr"; "tables"] "ocr" ["tables"] 0 empty_object 0).
  reflexivity.
Defined.

(** ** The citation extractor *)

Lemma gt_lt x y : Number.gt x y = true <-> Number.lt y x.
Proof.
  destruct x as [a|s|], y as [b|t|]; cbn [Number.gt Number.lt];
    try (split; [discriminate|tauto]).
  - rewrite negb_true_iff, <- not_true_iff_false, Qle_bool_iff.
    split; [apply Qnot_le_lt|apply Qlt_not_le].
  - now destruct t.
  - now rewrite negb_true_iff.
  - rewrite andb_true_iff, negb_true_iff. tauto.
Qed.

(** [filter(...).length] counts the citations above the threshold. *)
Lemma count_valid_spec cs : count_valid cs = length (filter above_threshold cs).
Proof.
  unfold count_valid. induction cs as [|c cs IH]; [reflexivity|].
  cbn [List.filter]. rewrite filter_cons.
  destruct (decide (above_threshold c)) as [H|H];
    destruct (Number.gt _ _) eqn:G; cbn [length]; try now rewrite IH.
  - apply gt_lt in H. unfold above_threshold in *. congruence.
  - apply gt_lt in G. contradiction.
Qed.

(** What the [citations] case does when the extractor call succeeds. *)
Lemma citations_iteration host ex pdfBase64 modules remaining
    completedModules result n citationResult :
  citation_extractor ex n pdfBase64 = inr citationResult ->
  let cs := citationResult_citations citationResult in
  let result' :=
    {| outcomes := outcomes result;
       tables := tables result;
       imaging := imaging result;
       harmonized_outcomes := harmonized_outcomes result;
       citations := Some cs;
       citations_metadata := Some (make_citations_metadata cs);
       study_fields := study_fields result |} in
  events ex n (for_modules host pdfBase64 modules ("citations" :: remaining)
                 completedModules result)
  = [progress "citations" "Running citations extractor..."
       (basePercent completedModules (length modules));
     moduleStart "citations" "Citation Extractor";
     moduleComplete "citations" (CitationsData (length cs) (take 5 cs))
       ("Extracted " +:+ pretty (length cs) +:+ " citations (92.1% accuracy)")]
    ++ events ex (S n) (for_modules host pdfBase64 modules remaining
                          (S completedModules) result').
Proof.
  intros H. cbn zeta.
  cbn [for_modules switch String.eqb Ascii.eqb Bool.eqb events settle].
  now rewrite H.
Qed.





(** The sum that [reduce] computes, for scores that are all finite. *)
Lemma sum_quality_finite cs : forall qs (a : Q),
  Forall2 (fun c q => quality_score c = Finite q) cs qs ->
  exists s,
    fold_left (fun sum c => (sum + quality_score c)%num) cs (Finite a) = Finite s
    /\ (s == a + fold_right Qplus 0 qs)%Q.
Proof.
  induction cs as [|c cs IH]; intros qs a Hqs.
  - apply Forall2_nil_inv_l in Hqs as ->. exists a. split; [reflexivity|].
    cbn. ring.
  - apply Forall2_cons_inv_l in Hqs as (q & qs' & Hq & Hqs & ->).
    cbn [fold_left fold_right]. rewrite Hq. cbn [add].
    destruct (IH qs' (a + q)%Q Hqs) as (s & -> & Hs).
    exists s. split; [reflexivity|]. rewrite Hs. ring.
Qed.


(** Without citations, [reduce] yields 0 and [length] is 0. *)
Lemma average_quality_empty :
  average_quality (make_citations_metadata []) = NaN.
Proof. reflexivity. Qed.

(** C1 fails on the code: for a document in which the citation extractor
    finds no citation, the run ends normally and the average quality in
    its result is [0 / 0], which is NaN and not 0. *)
Theorem C1_average_quality_without_citations :
  exists evs data metadata,
    run Sample.disk (Sample.succeeding []) (Sample.command ["citations"])
    = evs ++ [extractionComplete true data ["citations"]
                "2025-01-01T00:00:00.000Z"]
    /\ citations data = Some []
    /\ citations_metadata data = Some metadata
    /\ total_extracted metadata = 0
    /\ average_quality metadata = NaN
    /\ ~ same (average_quality metadata) (num 0).
Proof.
  eexists [_; _; _; _; _], _, _. split; [vm_compute; reflexivity|].
  cbn. repeat split. tauto.
Qed.

(** ** Handler invocations on one connection *)

Lemma sync_Emit e p : sync (Emit e p) = (e :: fst (sync p), snd (sync p)).
Proof. cbn [sync]. now destruct (sync p). Qed.

(** A connection with one handler invocation, whose promises settle one
    after the other, emits the events of [events]. *)
Lemma session_alone_from host ex p : forall n sent,
  exists k,
    Session.dispatch_all host ex
      {| Session.channel := sent ++ fst (sync p);
         Session.suspended := Session.park n (snd (sync p)) |}
      (repeat (Session.settlement 0) k)
    = {| Session.channel := sent ++ events ex n p; Session.suspended := [] |}.
Proof.
  induction p as [|e p IH|R call k IH]; intros n sent.
  - exists 0. reflexivity.
  - destruct (IH n (sent ++ [e])) as (k & Hk). exists k.
    rewrite sync_Emit. cbn [fst snd events].
    rewrite <- !app_assoc in Hk. exact Hk.
  - destruct (IH (settle ex n call) (S n) sent) as (k' & Hk). exists (S k').
    cbn [repeat Session.dispatch_all fold_left sync fst snd Session.park events].
    unfold Session.dispatch at 2.
    cbn [Session.suspended Session.channel lookup list_lookup take drop app].
    destruct (sync (k (settle ex n call))) as [evs p'] eqn:Hsync.
    cbn [fst snd] in Hk. rewrite !app_nil_r. exact Hk.
Qed.


(** Two start commands, the second one received while the first run
    awaits the table extractor: the second run emits into the channel at
    once, and its events come before the first run's last ones when its
    promise settles first. *)
Example two_runs_interleave :
  map subject
    (Session.channel
       (Session.dispatch_all Sample.disk (Sample.succeeding [])
          Session.connected
          [Session.message (Sample.command ["tables"]);
           Session.message (Sample.command ["imaging"]);
           Session.settlement 1;
           Session.settlement 0]))
  = ["reading"; "tables"; "tables";
     "reading"; "imaging"; "imaging"; "imaging"; "complete"; "done";
     "tables"; "complete"; "done"].
Proof. vm_compute. reflexivity. Qed.

(** The run of a second start command is under way while the first one
    still awaits its extractor. *)
Lemma C9_counterexample :
  ~ (Session.processing Sample.extracting_tables ->
     rejected_or_queued Sample.disk (Sample.succeeding [])
       Sample.extracting_tables (Sample.command ["imaging"])).
Proof.
  intros H. destruct H as [Hsuspended _].
  - unfold Session.processing. vm_compute. discriminate.
  - apply (f_equal length) in Hsuspended. vm_compute in Hsuspended.
    discriminate.
Qed.

(** C9, amended: the connection keeps no record that it is processing a
    run.  A start command that arrives while handler invocations are
    suspended is handled as on an idle connection: what it emits at once
    goes to the same channel, after what was sent before, and its handler
    invocation, once suspended, joins those in flight, which stay as they
    are.  It is neither rejected nor queued. *)
Theorem C9_start_while_processing host ex s data :
  let alone :=
    Session.dispatch host ex Session.connected (Session.message data) in
  let s' := Session.dispatch host ex s (Session.message data) in
  Session.channel s' = Session.channel s ++ Session.channel alone
  /\ Session.suspended s' = Session.suspended s ++ Session.suspended alone
  /\ if existsSync host (join host (uploadsDir host) (filename data))
     then exists evs,
            Session.channel alone
            = progress "reading" "Reading PDF file..." (num 5) :: evs
     else Session.channel alone = [error "File not found"].
Proof.
  cbn zeta. unfold Session.dispatch.
  destruct (sync (startExtraction host data)) as [evs p] eqn:Hsync.
  cbn [Session.channel Session.suspended Session.connected app].
  repeat split.
  unfold startExtraction in Hsync.
  destruct (existsSync host _).
  - cbn [negb] in Hsync. rewrite sync_Emit in Hsync.
    injection Hsync as <- _. eauto.
  - cbn in Hsync. now injection Hsync as <- _.
Qed.

(** * Further properties of the handler *)

(** ** The state of the loop *)

Section LoopState.

Context (host : Host) (ex : Extractors) (pdfBase64 : string)
        (modules : list string).

Local Abbreviation loop := (for_modules host pdfBase64 modules).

Lemma loop_after_iteration moduleName remaining completedModules result n :
  exists stage,
    events ex n (loop (moduleName :: remaining) completedModules result)
    = progress moduleName ("Running " +:+ moduleName +:+ " extractor...")
        (basePercent completedModules (length modules))
      :: stage
         ++ events ex (after_iteration ex pdfBase64 moduleName (n, result)).1
              (loop remaining (S completedModules)
                 (after_iteration ex pdfBase64 moduleName (n, result)).2)
    /\ iteration_events moduleName stage
    /\ (after_iteration ex pdfBase64 moduleName (n, result)).1
       = n + count is_moduleComplete stage + count is_moduleError stage.
Proof.
  cbn [for_modules events]. unfold after_iteration.
  destruct (switch moduleName) as [k|] eqn:Hsw.
  - pose proof (known_switch _ _ Hsw) as Hk.
    pose proof (switch_Some _ _ Hsw) as Hname.
    destruct k; cbn [events settle]; subst moduleName;
      try match goal with
          | |- context [match outcomes ?r with Some _ => _ | None => _ end] =>
              destruct (outcomes r) eqn:Ho
          end;
      cbn [events settle fst snd];
      try match goal with
          | |- context [match ?promise with inl _ => _ | inr _ => _ end] =>
              destruct promise
          end;
      cbn [events merged fst snd];
      try (unfold assign_harmonized_outcomes; rewrite Ho);
      first [ eexists [_; _]; split; [reflexivity|]
            | eexists [_]; split; [reflexivity|] ];
      (split; [ first [ now apply iteration_failed
                      | now apply iteration_completed
                      | now apply iteration_noop ]
              | cbn; lia ]).
  - exists []. split; [reflexivity|]. split; [now apply iteration_skipped|].
    cbn; lia.
Qed.

Lemma loop_calls_iteration moduleName remaining completedModules result n :
  calls ex n (loop (moduleName :: remaining) completedModules result)
  = option_list (iteration_call pdfBase64 moduleName result)
    ++ calls ex (after_iteration ex pdfBase64 moduleName (n, result)).1
         (loop remaining (S completedModules)
            (after_iteration ex pdfBase64 moduleName (n, result)).2)
  /\ (after_iteration ex pdfBase64 moduleName (n, result)).1
     = n + length (option_list (iteration_call pdfBase64 moduleName result)).
Proof.
  cbn [for_modules calls]. unfold after_iteration, iteration_call.
  destruct (switch moduleName) as [k|] eqn:Hsw.
  - destruct k; cbn [calls settle];
      try match goal with
          | |- context [match outcomes ?r with Some _ => _ | None => _ end] =>
              destruct (outcomes r) eqn:Ho
          end;
      cbn [calls settle fst snd option_list app length];
      try match goal with
          | |- context [match ?promise with inl _ => _ | inr _ => _ end] =>
              destruct promise
          end;
      cbn [calls merged fst snd];
      try (unfold assign_harmonized_outcomes; rewrite Ho);
      (split; [reflexivity|cbn; lia]).
  - cbn. split; [reflexivity|lia].
Qed.

Lemma after_loop_cons moduleName remaining st :
  after_loop ex pdfBase64 (moduleName :: remaining) st
  = after_loop ex pdfBase64 remaining (after_iteration ex pdfBase64 moduleName st).
Proof. reflexivity. Qed.

(** The loop ends with the two last events of the handler, the result
    being the one that the iterations leave; no event before them ends
    the run. *)
Lemma loop_final remaining : forall completedModules result n,
  exists evs,
    events ex n (loop remaining completedModules result)
    = evs ++ epilogue host modules
               (after_loop ex pdfBase64 remaining (n, result)).2
    /\ Forall (fun e => is_terminal e = false) evs.
Proof.
  induction remaining as [|moduleName remaining IH]; intros c result n.
  - exists []. split; [reflexivity|constructor].
  - destruct (loop_after_iteration moduleName remaining c result n)
      as (stage & -> & Hstage & _).
    rewrite after_loop_cons.
    destruct (after_iteration ex pdfBase64 moduleName (n, result)) as [n' result'].
    cbn [fst snd].
    destruct (IH (S c) result' n') as (evs & -> & Hevs).
    exists (progress moduleName ("Running " +:+ moduleName +:+ " extractor...")
              (basePercent c (length modules)) :: stage ++ evs).
    split; [cbn [app fst snd]; now rewrite app_assoc|].
    constructor; [reflexivity|]. apply Forall_app. split; [|assumption].
    destruct Hstage; repeat constructor.
Qed.

Lemma loop_steps remaining : forall completedModules result n,
  steps (events ex n (loop remaining completedModules result))
  = remaining ++ ["complete"].
Proof.
  induction remaining as [|moduleName remaining IH]; intros c result n.
  - reflexivity.
  - destruct (loop_after_iteration moduleName remaining c result n)
      as (stage & -> & Hstage & _).
    unfold steps in *. cbn [omap list_omap app]. rewrite omap_app, IH.
    now destruct Hstage.
Qed.

Lemma loop_calls_answered remaining : forall completedModules result n,
  let evs := events ex n (loop remaining completedModules result) in
  length (calls ex n (loop remaining completedModules result))
  = count is_moduleComplete evs + count is_moduleError evs.
Proof.
  induction remaining as [|moduleName remaining IH]; intros c result n.
  - reflexivity.
  - cbn zeta.
    destruct (loop_after_iteration moduleName remaining c result n)
      as (stage & -> & _ & Hn).
    destruct (loop_calls_iteration moduleName remaining c result n)
      as (-> & Hn').
    rewrite length_app, IH. cbn zeta.
    rewrite !count_cons, !count_app. cbn [is_moduleComplete is_moduleError].
    lia.
Qed.

End LoopState.

(** The last event of a run that gets to the loop. *)
Lemma run_loop_last host ex data pdfBuffer :
  existsSync host (join host (uploadsDir host) (filename data)) = true ->
  readFileSync host (join host (uploadsDir host) (filename data)) = inr pdfBuffer ->
  last (run host ex data)
  = Some (extractionComplete true
            (after_loop ex (toString_base64 host pdfBuffer) (modules data)
               (0, empty_object)).2
            (modules data) (toISOString_now host)).
Proof.
  intros Hexists Hread.
  rewrite (run_loop _ _ _ pdfBuffer) by assumption.
  destruct (loop_final host ex (toString_base64 host pdfBuffer)
              (modules data) (modules data) 0 empty_object 0)
    as (evs & -> & _).
  unfold epilogue.
  set (a := progress "complete" _ _). set (b := extractionComplete _ _ _ _).
  replace (progress "reading" "Reading PDF file..." (num 5) :: evs ++ [a; b])
    with ((progress "reading" "Reading PDF file..." (num 5) :: evs ++ [a]) ++ [b])
    by (cbn [app]; now rewrite <- app_assoc).
  apply last_snoc.
Qed.

(** The calls of a run and its module events. *)
Lemma run_calls_counted host ex data :
  length (calls ex 0 (startExtraction host data))
  = count is_moduleComplete (run host ex data)
    + count is_moduleError (run host ex data).
Proof.
  unfold run, startExtraction.
  destruct (existsSync host _); [|reflexivity].
  destruct (readFileSync host _) as [e|pdfBuffer]; [reflexivity|].
  cbn [negb calls events]. rewrite !count_cons.
  cbn [is_moduleComplete is_moduleError Nat.add].
  apply loop_calls_answered.
Qed.

(** ** The events of a whole run *)

Section WholeRun.

Context (host : Host) (ex : Extractors) (data : StartData).

Local Abbreviation pdfPath := (join host (uploadsDir host) (filename data)).

(** A run has one terminal event, the fatal error or the terminal
    success, and it is the last event of the run. *)
Theorem run_one_terminal_event :
  exists evs terminal,
    run host ex data = evs ++ [terminal]
    /\ is_terminal terminal = true
    /\ Forall (fun e => is_terminal e = false) evs.
Proof.
  destruct (existsSync host pdfPath) eqn:Hexists.
  - destruct (readFileSync host pdfPath) as [e|pdfBuffer] eqn:Hread.
    + rewrite (run_unreadable _ _ _ e) by assumption.
      eexists [_], _. repeat split. repeat constructor.
    + rewrite (run_loop _ _ _ pdfBuffer) by assumption.
      destruct (loop_final host ex (toString_base64 host pdfBuffer)
                  (modules data) (modules data) 0 empty_object 0)
        as (evs & -> & Hevs).
      unfold epilogue.
      eexists (_ :: evs ++ [_]), _. split; [|split].
      * cbn [app]. rewrite <- app_assoc. reflexivity.
      * reflexivity.
      * constructor; [reflexivity|]. apply Forall_app. split; [assumption|].
        repeat constructor.
  - rewrite run_missing by assumption. exists [], (error "File not found").
    repeat split. constructor.
Qed.

(** The terminal event of a run.  When the document exists and is read,
    it is the terminal success event, whatever the stages did: [success]
    is [true], [data] is the result that the iterations leave, and
    [modulesExecuted] is the requested list as it came, with the stages
    that failed and the identifiers that no case matches.  Otherwise it is
    the fatal error event. *)
Theorem run_terminal_event :
  last (run host ex data)
  = Some
      (if existsSync host pdfPath
       then match readFileSync host pdfPath with
            | inr pdfBuffer =>
                extractionComplete true
                  (after_loop ex (toString_base64 host pdfBuffer)
                     (modules data) (0, empty_object)).2
                  (modules data) (toISOString_now host)
            | inl e => error (message_of e "Extraction failed")
            end
       else error "File not found").
Proof.
  destruct (existsSync host pdfPath) eqn:Hexists.
  - destruct (readFileSync host pdfPath) as [e|pdfBuffer] eqn:Hread.
    + now rewrite (run_unreadable _ _ _ e) by assumption.
    + now apply run_loop_last.
  - now rewrite run_missing by assumption.
Qed.

(** The steps of the progress events: ["reading"], one step per requested
    stage in the order of the request (known or not, failed or not), and
    ["complete"].  A run that cannot read its document stops after
    ["reading"]; a run without document has no progress event. *)
Theorem run_progress_steps :
  steps (run host ex data)
  = if existsSync host pdfPath
    then match readFileSync host pdfPath with
         | inr _ => "reading" :: modules data ++ ["complete"]
         | inl _ => ["reading"]
         end
    else [].
Proof.
  destruct (existsSync host pdfPath) eqn:Hexists.
  - destruct (readFileSync host pdfPath) as [e|pdfBuffer] eqn:Hread.
    + now rewrite (run_unreadable _ _ _ e) by assumption.
    + rewrite (run_loop _ _ _ pdfBuffer) by assumption.
      unfold steps. cbn [omap list_omap]. fold steps.
      now rewrite loop_steps.
  - now rewrite run_missing by assumption.
Qed.

(** Every extractor call of a run is answered by one event: the calls
    are as many as the module-completed and module-failed events
    together. *)
Theorem run_calls_answered :
  length (calls ex 0 (startExtraction host data))
  = count is_moduleComplete (run host ex data)
    + count is_moduleError (run host ex data).
Proof.
  pose proof (run_calls_counted host ex data) as H.
  unfold count in *. lia.
Qed.

End WholeRun.

(** ** The accumulated result, iteration by iteration *)

Section Accumulated.

Context (ex : Extractors) (pdfBase64 : string).

(** What an iteration can do to the result. *)
Lemma after_iteration_cases moduleName n result :
  let result' := (after_iteration ex pdfBase64 moduleName (n, result)).2 in
  result' = result
  \/ (moduleName = "full-pdf"
      /\ exists r, full_pdf_extractor ex n pdfBase64 = inr r
                   /\ result' = Object_assign result r)
  \/ (moduleName = "tables"
      /\ exists r, table_figure_extractor ex n pdfBase64 = inr r
                   /\ result' = assign_tables result (tableResult_tables r))
  \/ (moduleName = "imaging"
      /\ exists r, imaging_extractor ex n pdfBase64 = inr r
                   /\ result' = assign_imaging result (metrics r))
  \/ (moduleName = "harmonizer"
      /\ exists o r, outcomes result = Some o
                     /\ outcome_harmonizer ex n o = inr r
                     /\ result' = assign_harmonized_outcomes result (harmonized r))
  \/ (moduleName = "citations"
      /\ exists r, citation_extractor ex n pdfBase64 = inr r
                   /\ result' = assign_citations result (citationResult_citations r)).
Proof.
  cbn zeta. unfold after_iteration.
  destruct (switch moduleName) as [k|] eqn:Hsw; [|now left].
  apply switch_Some in Hsw as ->.
  destruct k; cbn [snd].
  - destruct (full_pdf_extractor ex n pdfBase64) as [e|r] eqn:H; [now left|].
    right; left. eauto.
  - destruct (table_figure_extractor ex n pdfBase64) as [e|r] eqn:H; [now left|].
    right; right; left. eauto.
  - destruct (imaging_extractor ex n pdfBase64) as [e|r] eqn:H; [now left|].
    right; right; right; left. eauto.
  - destruct (outcomes result) as [o|] eqn:Ho; [|now left]. cbn [snd].
    destruct (outcome_harmonizer ex n o) as [e|r] eqn:H; [now left|].
    right; right; right; right; left. split; [reflexivity|]. eauto.
  - destruct (citation_extractor ex n pdfBase64) as [e|r] eqn:H; [now left|].
    right; right; right; right; right. eauto.
Qed.

Lemma after_iteration_calls_made moduleName n result :
  n <= (after_iteration ex pdfBase64 moduleName (n, result)).1 <= S n.
Proof.
  unfold after_iteration.
  destruct (switch moduleName) as [[]|]; try destruct (outcomes result);
    cbn [fst]; lia.
Qed.

Lemma after_loop_snoc stages moduleName st :
  after_loop ex pdfBase64 (stages ++ [moduleName]) st
  = after_iteration ex pdfBase64 moduleName (after_loop ex pdfBase64 stages st).
Proof. unfold after_loop. now rewrite fold_left_app. Qed.

Lemma assign_property_is_Some {A} (target source : option A) :
  is_Some (assign_property target source) -> is_Some target \/ is_Some source.
Proof. destruct source; cbn; eauto. Qed.

(** Each stage writes the properties it owns, and the full-PDF stage
    those of its result. *)
Lemma after_loop_owned stages : forall st,
  owned_by [] st.2 -> owned_by stages (after_loop ex pdfBase64 stages st).2.
Proof.
  induction stages as [|moduleName stages IH] using rev_ind; intros st Hst.
  - exact Hst.
  - rewrite after_loop_snoc.
    specialize (IH st Hst).
    destruct (after_loop ex pdfBase64 stages st) as [n result]. cbn [snd] in IH.
    assert (Hweaken : forall s, s ∈ stages -> s ∈ stages ++ [moduleName])
      by (intros s Hs; apply elem_of_app; now left).
    assert (Hlast : moduleName ∈ stages ++ [moduleName])
      by (apply elem_of_app; right; now apply list_elem_of_singleton).
    destruct IH as (Io & Is & Ih & It & Ii & Ic & Im).
    destruct (after_iteration_cases moduleName n result)
      as [->|[(-> & r & _ & ->)|[(-> & r & _ & ->)|[(-> & r & _ & ->)
         |[(-> & o & r & Ho & _ & ->)|(-> & r & _ & ->)]]]]].
    + unfold owned_by. repeat split; intros H;
        first [ apply Hweaken; auto
              | destruct (It H) || destruct (Ii H) || destruct (Ic H)
                || destruct (Im H); [left|right]; apply Hweaken; assumption ].
    + unfold owned_by. repeat split; intros _; auto.
    + unfold owned_by. cbn. repeat split; intros H;
        first [ apply Hweaken; auto; fail
              | now left
              | destruct (Ii H) || destruct (Ic H) || destruct (Im H);
                [left|right]; apply Hweaken; assumption ].
    + unfold owned_by. cbn. repeat split; intros H;
        first [ apply Hweaken; auto; fail
              | now left
              | destruct (It H) || destruct (Ic H) || destruct (Im H);
                [left|right]; apply Hweaken; assumption ].
    + unfold owned_by. cbn. repeat split; intros H;
        first [ apply Hweaken; auto; fail
              | apply Hweaken, Io; rewrite Ho; eauto
              | destruct (It H) || destruct (Ii H) || destruct (Ic H)
                || destruct (Im H); [left|right]; apply Hweaken; assumption ].
    + unfold owned_by. cbn. repeat split; intros H;
        first [ apply Hweaken; auto; fail
              | now left
              | destruct (It H) || destruct (Ii H);
                [left|right]; apply Hweaken; assumption ].
Qed.

End Accumulated.

(** ** Where the result of a run comes from *)

Section Provenance.

Context (host : Host) (ex : Extractors).

(** The result that a run delivers is the one that the iterations leave,
    from the empty object, stage after stage. *)
Lemma run_final_data data pdfBuffer :
  existsSync host (join host (uploadsDir host) (filename data)) = true ->
  readFileSync host (join host (uploadsDir host) (filename data)) = inr pdfBuffer ->
  final_data (run host ex data)
  = Some (after_loop ex (toString_base64 host pdfBuffer) (modules data)
            (0, empty_object)).2.
Proof.
  intros Hexists Hread. unfold final_data.
  now rewrite (run_loop_last host ex data pdfBuffer).
Qed.

Lemma final_data_delivered data d :
  final_data (run host ex data) = Some d ->
  exists pdfBuffer,
    readFileSync host (join host (uploadsDir host) (filename data)) = inr pdfBuffer
    /\ d = (after_loop ex (toString_base64 host pdfBuffer) (modules data)
              (0, empty_object)).2.
Proof.
  unfold final_data.
  destruct (existsSync host (join host (uploadsDir host) (filename data)))
    eqn:Hexists.
  - destruct (readFileSync host (join host (uploadsDir host) (filename data)))
      as [e|pdfBuffer] eqn:Hread.
    + now rewrite (run_unreadable _ _ _ e) by assumption.
    + rewrite (run_loop_last host ex data pdfBuffer) by assumption.
      intros [= <-]. eauto.
  - now rewrite run_missing by assumption.
Qed.

(** A property of the delivered result was written by a requested stage:
    by the stage that owns it, or by the full-PDF stage.  Outcomes and
    harmonized outcomes are only there when the full-PDF stage was
    requested. *)
Theorem run_result_owned data d :
  final_data (run host ex data) = Some d ->
  owned_by (modules data) d.
Proof.
  intros Hd. apply final_data_delivered in Hd as (pdfBuffer & _ & ->).
  apply after_loop_owned. cbn.
  unfold owned_by. repeat split; cbn; intros H;
    solve [ destruct H as [? [=]] | contradiction ].
Qed.

End Provenance.

(** ** The calls of a run *)

Section Calls.

Context (host : Host) (ex : Extractors) (pdfBase64 : string)
        (modules : list string).

Local Abbreviation loop := (for_modules host pdfBase64 modules).

Lemma from_full_pdf_later n n' o :
  n <= n' -> from_full_pdf ex pdfBase64 n o -> from_full_pdf ex pdfBase64 n' o.
Proof. intros Hn (k & r & Hk & H). exists k, r. split; [lia|assumption]. Qed.

Lemma after_iteration_outcomes moduleName n result o :
  outcomes (after_iteration ex pdfBase64 moduleName (n, result)).2 = Some o ->
  outcomes result = Some o
  \/ from_full_pdf ex pdfBase64
       (after_iteration ex pdfBase64 moduleName (n, result)).1 o.
Proof.
  intros H.
  destruct (after_iteration_cases ex pdfBase64 moduleName n result)
    as [E|[(-> & r & Hr & E)|[(-> & r & _ & E)|[(-> & r & _ & E)
       |[(-> & o' & r & _ & _ & E)|(-> & r & _ & E)]]]]];
    rewrite E in H; cbn in H; auto.
  unfold assign_property in H.
  destruct (outcomes r) as [o'|] eqn:Hor; [|auto].
  injection H as ->. right. exists n, r. repeat split; try assumption.
  unfold after_iteration. cbn. lia.
Qed.

(** The document extractors all get the document of the run. *)
Lemma loop_calls_document remaining : forall completedModules result n,
  Forall (fun c => forall pdf, document_of c = Some pdf -> pdf = pdfBase64)
    (calls ex n (loop remaining completedModules result)).
Proof.
  induction remaining as [|moduleName remaining IH]; intros c result n.
  - constructor.
  - destruct (loop_calls_iteration host ex pdfBase64 modules
                moduleName remaining c result n) as (-> & _).
    apply Forall_app. split; [|apply IH].
    unfold iteration_call.
    destruct (switch moduleName) as [[]|]; try destruct (outcomes result);
      repeat constructor; cbn; congruence.
Qed.

(** The harmonizer gets outcomes that the full-PDF extractor has returned
    earlier in the run. *)
Lemma loop_calls_outcomes remaining : forall completedModules result n,
  (forall o, outcomes result = Some o -> from_full_pdf ex pdfBase64 n o) ->
  forall i c o,
    calls ex n (loop remaining completedModules result) !! i = Some c ->
    outcomes_of c = Some o ->
    from_full_pdf ex pdfBase64 (n + i) o.
Proof.
  induction remaining as [|moduleName remaining IH];
    intros completed result n Hresult i c o Hc Ho.
  - discriminate Hc.
  - destruct (loop_calls_iteration host ex pdfBase64 modules
                moduleName remaining completed result n) as (E & Hn).
    rewrite E in Hc. clear E.
    pose proof (after_iteration_outcomes moduleName n result) as Hstep.
    pose proof (after_iteration_calls_made ex pdfBase64 moduleName n result) as Hle.
    destruct (after_iteration ex pdfBase64 moduleName (n, result))
      as [n' result']. cbn [fst snd] in *.
    apply lookup_app_Some in Hc as [Hc|[Hi Hc]].
    + apply from_full_pdf_later with n; [lia|]. apply Hresult.
      unfold iteration_call in Hc.
      destruct (switch moduleName) as [[]|]; try destruct (outcomes result);
        cbn in Hc; destruct i; try discriminate Hc;
        injection Hc as <-; cbn in Ho; congruence.
    + replace (n + i) with (n' + (i - length (option_list
                 (iteration_call pdfBase64 moduleName result)))) by lia.
      eapply IH; [|exact Hc|exact Ho].
      intros o' Ho'. destruct (Hstep o' Ho') as [H|H]; [|exact H].
      apply from_full_pdf_later with n; [lia|]. now apply Hresult.
Qed.

(** Without a full-PDF stage before it, the harmonizer is never called. *)
Lemma loop_calls_without_full_pdf remaining : forall completedModules result n,
  "full-pdf" ∉ remaining ->
  outcomes result = None ->
  Forall (fun c => outcomes_of c = None)
    (calls ex n (loop remaining completedModules result)).
Proof.
  induction remaining as [|moduleName remaining IH];
    intros completed result n Hnot Hresult.
  - constructor.
  - apply not_elem_of_cons in Hnot as [Hne Hnot].
    destruct (loop_calls_iteration host ex pdfBase64 modules
                moduleName remaining completed result n) as (-> & _).
    apply Forall_app. split.
    + unfold iteration_call.
      destruct (switch moduleName) as [[]|]; rewrite ?Hresult;
        repeat constructor.
    + apply IH; [assumption|].
      destruct (after_iteration_cases ex pdfBase64 moduleName n result)
        as [E|[(-> & _)|[(-> & r & _ & E)|[(-> & r & _ & E)
           |[(-> & o' & r & _ & _ & E)|(-> & r & _ & E)]]]]];
        try congruence; rewrite E; exact Hresult.
Qed.

End Calls.

Section RunCalls.

Context (host : Host) (ex : Extractors) (data : StartData).

Local Abbreviation pdfPath := (join host (uploadsDir host) (filename data)).

(** The document is read once, before the loop, and every document
    extractor that a run calls gets this one document, in base64. *)
Theorem run_calls_document c pdf :
  c ∈ calls ex 0 (startExtraction host data) ->
  document_of c = Some pdf ->
  exists pdfBuffer,
    readFileSync host pdfPath = inr pdfBuffer
    /\ pdf = toString_base64 host pdfBuffer.
Proof.
  unfold startExtraction.
  destruct (existsSync host pdfPath); [|intros H; inversion H].
  destruct (readFileSync host pdfPath) as [e|pdfBuffer];
    [intros H; inversion H|].
  cbn [negb calls]. intros Hc Hpdf. exists pdfBuffer. split; [reflexivity|].
  pose proof (loop_calls_document host ex (toString_base64 host pdfBuffer)
                (modules data) (modules data) 0 empty_object 0) as H.
  rewrite Forall_forall in H. now apply (H c).
Qed.

(** The outcomes that the [i]-th call of a run passes to the harmonizer
    are the outcomes of a result that the full-PDF extractor resolved to
    in an earlier call of the same run. *)
Theorem run_harmonizer_input i c o :
  calls ex 0 (startExtraction host data) !! i = Some c ->
  outcomes_of c = Some o ->
  exists pdfBuffer,
    readFileSync host pdfPath = inr pdfBuffer
    /\ from_full_pdf ex (toString_base64 host pdfBuffer) i o.
Proof.
  unfold startExtraction.
  destruct (existsSync host pdfPath); [|discriminate].
  destruct (readFileSync host pdfPath) as [e|pdfBuffer]; [discriminate|].
  cbn [negb calls]. intros Hc Ho. exists pdfBuffer. split; [reflexivity|].
  change i with (0 + i).
  eapply loop_calls_outcomes; [|exact Hc|exact Ho].
  discriminate.
Qed.

(** A request without the full-PDF stage never calls the harmonizer:
    each of its harmonizer stages is started and does nothing. *)
Theorem run_without_full_pdf :
  "full-pdf" ∉ modules data ->
  Forall (fun c => outcomes_of c = None) (calls ex 0 (startExtraction host data)).
Proof.
  intros Hnot. unfold startExtraction.
  destruct (existsSync host pdfPath); [|constructor].
  destruct (readFileSync host pdfPath) as [e|pdfBuffer]; [constructor|].
  cbn [negb calls]. now apply loop_calls_without_full_pdf.
Qed.

End RunCalls.

(** ** Citations and their metadata *)

Section Consistency.

Context (host : Host) (ex : Extractors).

Lemma after_loop_citations_metadata pdfBase64 stages : forall st,
  "full-pdf" ∉ stages ->
  citations_metadata st.2 = make_citations_metadata <$> citations st.2 ->
  let result := (after_loop ex pdfBase64 stages st).2 in
  citations_metadata result = make_citations_metadata <$> citations result.
Proof.
  induction stages as [|moduleName stages IH]; intros [n result] Hnot Hst.
  - exact Hst.
  - apply not_elem_of_cons in Hnot as [Hne Hnot].
    rewrite after_loop_cons.
    pose proof (after_iteration_cases ex pdfBase64 moduleName n result) as Hcases.
    destruct (after_iteration ex pdfBase64 moduleName (n, result))
      as [n' result'] eqn:Hstep.
    apply IH; [assumption|]. cbn [snd] in *.
    destruct Hcases
      as [->|[(-> & _)|[(-> & r & _ & ->)|[(-> & r & _ & ->)
         |[(-> & o' & r & _ & _ & ->)|(-> & r & _ & ->)]]]]];
      try congruence; try exact Hst; reflexivity.
Qed.

(** As long as no full-PDF stage is requested, the metadata of the
    delivered result are those of its citations: both are absent, or the
    metadata were computed from the very citations that are delivered. *)
Theorem run_citations_metadata_consistent data d :
  "full-pdf" ∉ modules data ->
  final_data (run host ex data) = Some d ->
  citations_metadata d = make_citations_metadata <$> citations d.
Proof.
  intros Hnot Hd. apply final_data_delivered in Hd as (pdfBuffer & _ & ->).
  now apply after_loop_citations_metadata.
Qed.

(** The metadata never count more valid citations than citations. *)
Lemma count_valid_le cs : count_valid cs <= length cs.
Proof. unfold count_valid. apply List.filter_length_le. Qed.

End Consistency.

(** ** Extractors that all fail *)

Section AllFail.

Context (host : Host) (ex : Extractors).

Hypothesis all_throw :
  forall n R (call : Request R), exists e, settle ex n call = inl e.

Lemma all_throw_after_loop pdfBase64 stages : forall n result,
  (after_loop ex pdfBase64 stages (n, result)).2 = result.
Proof.
  induction stages as [|moduleName stages IH]; intros n result; [reflexivity|].
  rewrite after_loop_cons.
  destruct (after_iteration_cases ex pdfBase64 moduleName n result)
    as [E|[(-> & r & Hr & _)|[(-> & r & Hr & _)|[(-> & r & Hr & _)
       |[(-> & o' & r & _ & Hr & _)|(-> & r & Hr & _)]]]]].
  - destruct (after_iteration ex pdfBase64 moduleName (n, result)) as [n' result'].
    cbn [snd] in E. subst result'. apply IH.
  - destruct (all_throw n _ (extractFullPdf pdfBase64)) as [e He].
    cbn in He. congruence.
  - destruct (all_throw n _ (extractTablesAndFigures pdfBase64)) as [e He].
    cbn in He. congruence.
  - destruct (all_throw n _ (extractImagingMetrics pdfBase64)) as [e He].
    cbn in He. congruence.
  - destruct (all_throw n _ (harmonizeOutcomes o')) as [e He].
    cbn in He. congruence.
  - destruct (all_throw n _ (extractCitations pdfBase64)) as [e He].
    cbn in He. congruence.
Qed.

Lemma all_throw_loop_no_complete pdfBase64 modules remaining :
  forall completedModules result n,
    count is_moduleComplete
      (events ex n (for_modules host pdfBase64 modules remaining
                      completedModules result)) = 0.
Proof.
  induction remaining as [|moduleName remaining IH]; intros c result n.
  - reflexivity.
  - cbn [for_modules events]. rewrite count_cons. cbn [is_moduleComplete Nat.add].
    destruct (switch moduleName) as [[]|];
      try (destruct (outcomes result) as [o|]);
      cbn [events]; rewrite ?count_cons; cbn [is_moduleComplete Nat.add];
      try apply IH;
      match goal with
      | |- context [settle ex n ?call] =>
          destruct (all_throw n _ call) as [e ->]
      end;
      cbn [events]; rewrite count_cons; cbn [is_moduleComplete Nat.add];
      apply IH.
Qed.

(** When every extractor call throws, the run of an existing document
    still ends with the terminal success event: it delivers the empty
    object, no stage completes, and each call is answered by a
    module-failed event. *)
Theorem run_all_extractors_fail data pdfBuffer :
  existsSync host (join host (uploadsDir host) (filename data)) = true ->
  readFileSync host (join host (uploadsDir host) (filename data)) = inr pdfBuffer ->
  last (run host ex data)
  = Some (extractionComplete true empty_object (modules data)
            (toISOString_now host))
  /\ count is_moduleComplete (run host ex data) = 0
  /\ count is_moduleError (run host ex data)
     = length (calls ex 0 (startExtraction host data)).
Proof.
  intros Hexists Hread.
  assert (Hcomplete : count is_moduleComplete (run host ex data) = 0).
  { rewrite (run_loop _ _ _ pdfBuffer) by assumption.
    rewrite count_cons. apply all_throw_loop_no_complete. }
  split; [|split].
  - rewrite (run_loop_last host ex data pdfBuffer) by assumption.
    now rewrite all_throw_after_loop.
  - exact Hcomplete.
  - rewrite run_calls_counted, Hcomplete. reflexivity.
Qed.

End AllFail.

(** ** The order of the stages *)

Section Order.

Context (host : Host) (ex : Extractors).

(** The stage that writes a property last decides it.  When the table
    extractor resolves to [tableResult] and the request ends with the
    stage tables, the run delivers the tables of [tableResult]; when the
    full-PDF stage follows and its result has tables of its own, the run
    delivers those instead. *)
Theorem run_last_writer_wins data pdfBuffer before tableResult fullPdfResult :
  existsSync host (join host (uploadsDir host) (filename data)) = true ->
  readFileSync host (join host (uploadsDir host) (filename data)) = inr pdfBuffer ->
  (forall n, table_figure_extractor ex n (toString_base64 host pdfBuffer)
             = inr tableResult) ->
  (forall n, full_pdf_extractor ex n (toString_base64 host pdfBuffer)
             = inr fullPdfResult) ->
  (modules data = before ++ ["tables"] ->
   exists d, final_data (run host ex data) = Some d
             /\ tables d = Some (tableResult_tables tableResult))
  /\ (modules data = before ++ ["tables"; "full-pdf"] ->
      exists d, final_data (run host ex data) = Some d
                /\ tables d = Some (default (tableResult_tables tableResult)
                                      (tables fullPdfResult))).
Proof.
  intros Hexists Hread Htables Hfull.
  split; intros Hmodules; eexists;
    (split; [apply (run_final_data host ex data pdfBuffer); assumption|]);
    rewrite Hmodules.
  - rewrite after_loop_snoc.
    destruct (after_loop ex _ before _) as [n result].
    unfold after_iteration. cbn [switch String.eqb Ascii.eqb Bool.eqb snd].
    now rewrite Htables.
  - change (before ++ ["tables"; "full-pdf"])
      with (before ++ ["tables"] ++ ["full-pdf"]).
    rewrite app_assoc, !after_loop_snoc.
    destruct (after_loop ex _ before _) as [n result].
    unfold after_iteration. cbn [switch String.eqb Ascii.eqb Bool.eqb snd].
    rewrite Htables, Hfull. cbn.
    now destruct (tables fullPdfResult).
Qed.

End Order.

(** ** The other cases of the [switch] *)

Section Cases.

Context (host : Host) (ex : Extractors) (pdfBase64 : string)
        (modules : list string).

Local Abbreviation loop := (for_modules host pdfBase64 modules).




End Cases.

(** ** A document that cannot be read *)

(** When the document exists and reading it throws, the run is the
    progress event of the reading step and the fatal error event, which
    carries the message of the error (or "Extraction failed" for a thrown
    value that is no error).  No stage is started and no extractor is
    called. *)
Theorem run_read_failure host ex data e :
  existsSync host (join host (uploadsDir host) (filename data)) = true ->
  readFileSync host (join host (uploadsDir host) (filename data)) = inl e ->
  run host ex data
  = [progress "reading" "Reading PDF file..." (num 5);
     error (message_of e "Extraction failed")]
  /\ calls ex 0 (startExtraction host data) = [].
Proof.
  intros Hexists Hread. split.
  - now apply run_unreadable.
  - unfold startExtraction. now rewrite Hexists, Hread.
Qed.

(** ** The progress bar *)

Section Progress.

Open Scope Q_scope.

Lemma ratio_lt i j t :
  (i < j)%nat -> (0 < t)%nat ->
  inject_Z (Z.of_nat i) / inject_Z (Z.of_nat t)
  < inject_Z (Z.of_nat j) / inject_Z (Z.of_nat t).
Proof.
  intros Hij Ht. unfold Qdiv. apply Qmult_lt_compat_r.
  - apply Qinv_lt_0_compat. change 0 with (inject_Z 0). rewrite <- Zlt_Qlt. lia.
  - rewrite <- Zlt_Qlt. lia.
Qed.

Lemma basePercent_lt i j t :
  (i < j)%nat -> (j < t)%nat -> Number.lt (basePercent i t) (basePercent j t).
Proof.
  intros Hij Hjt. rewrite !basePercent_finite by lia. cbn [Number.lt].
  pose proof (ratio_lt i j t Hij ltac:(lia)).
  apply Qplus_lt_r. apply Qmult_lt_compat_r; [reflexivity|assumption].
Qed.

(** A stage percentage lies between 10 and 90. *)
Lemma basePercent_range i t :
  (i < t)%nat ->
  (num 10 <= basePercent i t)%num /\ (basePercent i t <= num 90)%num.
Proof.
  intros Hit. rewrite !basePercent_finite by lia. unfold num. cbn [le].
  destruct (ratio_bounds i t Hit) as [H0 H1].
  set (r := inject_Z (Z.of_nat i) / inject_Z (Z.of_nat t)) in *.
  assert (0 <= r * inject_Z 80)
    by (apply Qmult_le_0_compat; [assumption|discriminate]).
  assert (r * inject_Z 80 <= 1 * inject_Z 80)
    by (apply Qmult_le_compat_r; [assumption|discriminate]).
  change (inject_Z 90) with (90 # 1). change (inject_Z 10) with (10 # 1).
  change (inject_Z 80) with (80 # 1) in *.
  split; lra.
Qed.

End Progress.

Lemma lt_le_trans_number x y z :
  Number.lt x y -> Number.le y z -> Number.lt x z.
Proof.
  destruct x as [a|[]|], y as [b|[]|], z as [c|[]|]; cbn;
    try apply Qlt_le_trans; intuition congruence.
Qed.

Lemma le_lt_trans_number x y z :
  Number.le x y -> Number.lt y z -> Number.lt x z.
Proof.
  destruct x as [a|[]|], y as [b|[]|], z as [c|[]|]; cbn;
    try apply Qle_lt_trans; intuition congruence.
Qed.

Lemma loop_percents_increasing t k : forall a,
  a + k <= t ->
  StronglySorted Number.lt
    (map (fun i => basePercent i t) (seq a k) ++ [num 100]).
Proof.
  induction k as [|k IH]; intros a Hak; cbn [seq map app].
  - repeat constructor.
  - constructor.
    + apply IH. lia.
    + apply Forall_app. split.
      * apply List.Forall_map, Forall_seq. intros j Hj.
        apply basePercent_lt; lia.
      * constructor; [|constructor].
        apply le_lt_trans_number with (num 90).
        -- apply basePercent_range. lia.
        -- reflexivity.
Qed.


(** ** Scores between 0 and 1 *)

Section Scores.

Open Scope Q_scope.

Lemma sum_quality_bounds cs : forall a,
  Forall (fun c => exists q, quality_score c = Finite q /\ 0 <= q <= 1) cs ->
  exists s,
    fold_left (fun sum c => (sum + quality_score c)%num) cs (Finite a) = Finite s
    /\ a <= s <= a + inject_Z (Z.of_nat (length cs)).
Proof.
  induction cs as [|c cs IH]; intros a Hcs.
  - exists a. split; [reflexivity|]. cbn [length].
    change (inject_Z (Z.of_nat 0)) with 0. split; lra.
  - apply Forall_cons in Hcs as [(q & Hq & Hq0 & Hq1) Hcs].
    cbn [fold_left]. rewrite Hq. cbn [add].
    destruct (IH (a + q) Hcs) as (s & -> & Hs0 & Hs1).
    exists s. split; [reflexivity|].
    cbn [length]. rewrite Nat2Z.inj_succ, <- Z.add_1_r, inject_Z_plus.
    change (inject_Z 1) with 1. split; lra.
Qed.

(** For a citation sequence that is not empty and whose scores are
    between 0 and 1, the average quality is a number between 0 and 1,
    and the valid citations are at most as many as the citations. *)
Theorem citations_metadata_in_range cs :
  cs <> [] ->
  Forall (fun c => exists q, quality_score c = Finite q /\ 0 <= q <= 1) cs ->
  let metadata := make_citations_metadata cs in
  (exists a, average_quality metadata = Finite a /\ 0 <= a <= 1)
  /\ (valid_citations metadata <= total_extracted metadata)%nat.
Proof.
  intros Hne Hcs. cbn zeta. split; [|apply count_valid_le].
  cbn [average_quality make_citations_metadata]. unfold sum_quality, num.
  destruct (sum_quality_bounds cs (inject_Z 0) Hcs) as (s & -> & Hs0 & Hs1).
  assert (Hlen : (0 < length cs)%nat) by (destruct cs; [congruence|cbn; lia]).
  unfold of_nat. cbn [div]. rewrite of_nat_not_zero by assumption.
  eexists. split; [reflexivity|].
  assert (0 < inject_Z (Z.of_nat (length cs)))
    by (change 0 with (inject_Z 0); rewrite <- Zlt_Qlt; lia).
  change (inject_Z 0) with 0 in *.
  split.
  - apply Qle_shift_div_l; [assumption|]. lra.
  - apply Qle_shift_div_r; [assumption|]. lra.
Qed.

End Scores.

(** ** Names of uploaded files *)

Lemma pretty_N_char_not_dash x : pretty_N_char x <> "-"%char.
Proof. unfold pretty_N_char. now repeat case_match. Qed.

Lemma pretty_N_go_no_dash x : forall s,
  "-"%char ∉ characters s -> "-"%char ∉ characters (pretty_N_go x s).
Proof.
  induction (N.lt_wf_0 x) as [x _ IH]; intros s Hs.
  assert (x = 0 \/ 0 < x)%N as [->|Hx] by lia.
  - now rewrite pretty_N_go_0.
  - rewrite pretty_N_go_step by assumption. apply IH.
    + now apply N.div_lt.
    + cbn [characters]. apply not_elem_of_cons. split; [|assumption].
      intros H. symmetry in H. now apply pretty_N_char_not_dash in H.
Qed.

(** A decimal numeral has no dash. *)
Lemma pretty_N_no_dash (x : N) : "-"%char ∉ characters (pretty x).
Proof.
  unfold pretty, pretty_N. case_decide.
  - cbn. intros Hdash. apply list_elem_of_singleton in Hdash. discriminate Hdash.
  - apply pretty_N_go_no_dash. cbn. apply not_elem_of_nil.
Qed.

Lemma split_at_dash s1 : forall s2 r1 r2,
  "-"%char ∉ characters s1 ->
  "-"%char ∉ characters s2 ->
  s1 +:+ "-" +:+ r1 = s2 +:+ "-" +:+ r2 ->
  s1 = s2 /\ r1 = r2.
Proof.
  induction s1 as [|c1 s1 IH]; intros [|c2 s2] r1 r2 H1 H2 E.
  - change (String "-" r1 = String "-" r2) in E. injection E as ->. now split.
  - change (String "-" r1 = String c2 (s2 +:+ "-" +:+ r2)) in E.
    injection E as <- _. exfalso. apply H2. left.
  - change (String c1 (s1 +:+ "-" +:+ r1) = String "-" r2) in E.
    injection E as -> _. exfalso. apply H1. left.
  - change (String c1 (s1 +:+ "-" +:+ r1) = String c2 (s2 +:+ "-" +:+ r2)) in E.
    injection E as -> E. cbn [characters] in H1, H2.
    apply not_elem_of_cons in H1 as [_ H1].
    apply not_elem_of_cons in H2 as [_ H2].
    destruct (IH s2 r1 r2 H1 H2 E) as [-> ->]. now split.
Qed.

(** The stored name of an upload determines the time of the upload and
    the original name of the file: two uploads get the same stored name
    only when they have the same original name and arrive in the same
    millisecond. *)
Theorem uniqueName_inj now1 file1 now2 file2 :
  uniqueName now1 file1 = uniqueName now2 file2 ->
  now1 = now2 /\ originalname file1 = originalname file2.
Proof.
  unfold uniqueName. intros E.
  apply split_at_dash in E as [E ->]; try apply pretty_N_no_dash.
  split; [|reflexivity]. now apply (inj pretty).
Qed.

(** ** Runs on one connection do not disturb each other *)

Section Interleaving.

Context {A : Type}.
Implicit Types (ls : list (list A)) (out : list A).

Lemma interleaved_grow_one ls out :
  interleaved ls out ->
  forall j l x,
    ls !! j = Some l ->
    interleaved (<[j := l ++ [x]]> ls) (out ++ [x]).
Proof.
  induction 1 as [ls Hnil|ls i y l' out Hi _ IH]; intros j l x Hj.
  - assert (l = []) as ->.
    { rewrite Forall_forall in Hnil. apply Hnil.
      eapply list_elem_of_lookup_2. exact Hj. }
    cbn [app]. apply interleaved_cons with j [].
    + apply list_lookup_insert_eq. eapply lookup_lt_Some. exact Hj.
    + rewrite list_insert_insert_eq. apply interleaved_nil.
      now apply Forall_insert.
  - cbn [app]. destruct (decide (i = j)) as [->|Hne].
    + rewrite Hi in Hj. injection Hj as <-.
      apply interleaved_cons with j (l' ++ [x]).
      * apply list_lookup_insert_eq. eapply lookup_lt_Some. exact Hi.
      * rewrite list_insert_insert_eq.
        rewrite <- (list_insert_insert_eq ls j (l' ++ [x]) l').
        apply IH. apply list_lookup_insert_eq. eapply lookup_lt_Some. exact Hi.
    + apply interleaved_cons with i l'.
      * now rewrite list_lookup_insert_ne by congruence.
      * rewrite list_insert_insert_ne by congruence.
        apply IH. now rewrite list_lookup_insert_ne.
Qed.

Lemma interleaved_grow ls out j l more :
  interleaved ls out ->
  ls !! j = Some l ->
  interleaved (<[j := l ++ more]> ls) (out ++ more).
Proof.
  revert ls out l. induction more as [|x more IH]; intros ls out l H Hj.
  - rewrite !app_nil_r. now rewrite list_insert_id.
  - replace (l ++ x :: more) with ((l ++ [x]) ++ more)
      by now rewrite <- app_assoc.
    replace (out ++ x :: more) with ((out ++ [x]) ++ more)
      by now rewrite <- app_assoc.
    rewrite <- (list_insert_insert_eq ls j ((l ++ [x]) ++ more) (l ++ [x])).
    apply IH.
    + now apply interleaved_grow_one.
    + apply list_lookup_insert_eq. eapply lookup_lt_Some. exact Hj.
Qed.

Lemma interleaved_idle ls out :
  interleaved ls out -> interleaved (ls ++ [[]]) out.
Proof.
  induction 1 as [ls Hnil|ls i y l' out Hi _ IH].
  - apply interleaved_nil. apply Forall_app. split; [assumption|].
    now repeat constructor.
  - apply interleaved_cons with i l'.
    + now apply lookup_app_l_Some.
    + rewrite insert_app_l by (eapply lookup_lt_Some; exact Hi).
      exact IH.
Qed.

Lemma interleaved_join ls out more :
  interleaved ls out -> interleaved (ls ++ [more]) (out ++ more).
Proof.
  intros H. apply interleaved_idle in H.
  apply (interleaved_grow _ _ (length ls) [] more) in H.
  - rewrite insert_app_r_alt in H by lia.
    now rewrite Nat.sub_diag in H.
  - rewrite lookup_app_r by lia. now rewrite Nat.sub_diag.
Qed.

End Interleaving.

Section Isolation.

Context (host : Host) (ex : Extractors).

Lemma park_parked n p : Session.park n p = option_list (parked n p).
Proof. now destruct p. Qed.

(** The events of a handler: those up to where it suspends, then the
    others. *)
Lemma events_sync p : forall n,
  events ex n p = (sync p).1 ++ events ex n (sync p).2.
Proof.
  induction p as [|e p IH|R call k _]; intros n; try reflexivity.
  rewrite sync_Emit. cbn [fst snd events app]. now rewrite <- IH.
Qed.

Lemma sync_parked p n :
  events ex n (sync p).2
  = match parked n (sync p).2 with
    | Some (n', p') => events ex n' p'
    | None => []
    end.
Proof.
  induction p as [|e p IH|R call k _]; try reflexivity.
  rewrite sync_Emit. exact IH.
Qed.

Lemma omap_lookup_inv {B C} (f : B -> option C) (l : list B) : forall i y,
  omap f l !! i = Some y ->
  exists j x,
    l !! j = Some x /\ f x = Some y
    /\ take i (omap f l) = omap f (take j l)
    /\ drop (S i) (omap f l) = omap f (drop (S j) l).
Proof.
  induction l as [|b l IH]; intros i y Hi; [discriminate|].
  cbn [omap list_omap] in *. destruct (f b) as [c|] eqn:Hb.
  - destruct i as [|i].
    + injection Hi as <-. exists 0, b. repeat split; assumption.
    + destruct (IH i y Hi) as (j & x & Hj & Hx & Ht & Hd).
      exists (S j), x. cbn [take drop omap list_omap]. rewrite Hb.
      repeat split; try assumption. now rewrite <- Ht.
  - destruct (IH i y Hi) as (j & x & Hj & Hx & Ht & Hd).
    exists (S j), x. cbn [take drop omap list_omap]. rewrite Hb.
    repeat split; assumption.
Qed.

Lemma dispatch_accounted threads s t :
  accounts_for threads s ->
  Forall (on_its_run host ex) threads ->
    exists threads',
    accounts_for threads' (Session.dispatch host ex s t)
    /\ Forall (on_its_run host ex) threads'
    /\ command <$> threads' = (command <$> threads) ++ commands [t].
Proof.
  intros [Hchannel Hsuspended] Hruns.
  destruct t as [data|i]; cbn [Session.dispatch commands omap list_omap].
  - destruct (sync (startExtraction host data)) as [evs p] eqn:Hsync.
    exists (threads ++ [{| command := data; emitted := evs;
                           pending := parked 0 p |}]).
    split; [split|split].
    + cbn [Session.channel]. rewrite fmap_app. cbn [fmap list_fmap emitted].
      now apply interleaved_join.
    + cbn [Session.suspended]. rewrite omap_app, Hsuspended, park_parked.
      cbn [omap list_omap pending]. now destruct (parked 0 p).
    + apply Forall_app. split; [assumption|]. constructor; [|constructor].
      unfold on_its_run. cbn [command emitted pending]. unfold run.
      rewrite events_sync, Hsync. cbn [fst snd]. f_equal.
      pose proof (sync_parked (startExtraction host data) 0) as H.
      now rewrite Hsync in H.
    + now rewrite fmap_app.
  - destruct (Session.suspended s !! i) as [[n p]|] eqn:Hi;
      [destruct p as [|e p|R call k]|];
      try (exists threads; rewrite app_nil_r; repeat split; assumption).
    rewrite Hsuspended in Hi.
    destruct (omap_lookup_inv pending threads i _ Hi)
      as (j & t & Hj & Ht & Htake & Hdrop).
    destruct (sync (k (settle ex n call))) as [evs p'] eqn:Hsync.
    exists (<[j := {| command := command t; emitted := emitted t ++ evs;
                      pending := parked (S n) p' |}]> threads).
    split; [split|split].
    + cbn [Session.channel]. rewrite list_fmap_insert. cbn [emitted].
      apply interleaved_grow; [assumption|].
      rewrite list_lookup_fmap, Hj. reflexivity.
    + cbn [Session.suspended]. rewrite Hsuspended, Htake, Hdrop, park_parked.
      rewrite insert_take_drop by (eapply lookup_lt_Some; exact Hj).
      rewrite omap_app. cbn [omap list_omap pending].
      now destruct (parked (S n) p').
    + apply Forall_insert; [assumption|].
      rewrite Forall_forall in Hruns.
      pose proof (Hruns t (list_elem_of_lookup_2 _ _ _ Hj)) as Hrun.
      unfold on_its_run in *. cbn [command emitted pending].
      rewrite Hrun, Ht. cbn [events]. rewrite <- app_assoc. f_equal.
      rewrite events_sync, Hsync. cbn [fst snd]. f_equal.
      pose proof (sync_parked (k (settle ex n call)) (S n)) as H.
      now rewrite Hsync in H.
    + rewrite app_nil_r, list_fmap_insert. cbn [command].
      apply list_insert_id. rewrite list_lookup_fmap, Hj. reflexivity.
Qed.

End Isolation.

Section IsolationTheorem.

Context (host : Host) (ex : Extractors).

Lemma commands_cons t ts : commands (t :: ts) = commands [t] ++ commands ts.
Proof. unfold commands. cbn [omap list_omap]. now destruct t. Qed.

Lemma dispatch_all_accounted ts : forall threads s,
  accounts_for threads s ->
  Forall (on_its_run host ex) threads ->
  exists threads',
    accounts_for threads' (Session.dispatch_all host ex s ts)
    /\ Forall (on_its_run host ex) threads'
    /\ command <$> threads' = (command <$> threads) ++ commands ts.
Proof.
  induction ts as [|t ts IH]; intros threads s Hs Hruns.
  - exists threads. unfold commands. cbn [omap list_omap].
    rewrite app_nil_r. auto.
  - destruct (dispatch_accounted host ex threads s t Hs Hruns)
      as (threads1 & Hs1 & Hruns1 & Hcommands1).
    destruct (IH threads1 _ Hs1 Hruns1) as (threads' & Hs' & Hruns' & Hcommands').
    exists threads'. split; [assumption|]. split; [assumption|].
    now rewrite Hcommands', Hcommands1, (commands_cons t ts), <- app_assoc.
Qed.

Lemma omap_nil_inv {B C} (f : B -> option C) (l : list B) :
  omap f l = [] -> Forall (fun x => f x = None) l.
Proof.
  induction l as [|b l IH]; [constructor|].
  cbn [omap list_omap]. destruct (f b) eqn:Hb; [discriminate|].
  intros H. constructor; auto.
Qed.


End IsolationTheorem.

(** ** The properties on concrete runs *)

Lemma run_result_owned_witness :
  owned_by ["tables"; "citations"]
    {| outcomes := None;
       tables := Some [[]; []];
       imaging := None;
       harmonized_outcomes := None;
       citations := Some Sample.seven_citations;
       citations_metadata := Some (make_citations_metadata Sample.seven_citations);
       study_fields := ∅ |}.
Proof.
  apply (run_result_owned Sample.disk
           (Sample.succeeding Sample.seven_citations)
           (Sample.command ["tables"; "citations"])).
  vm_compute. reflexivity.
Defined.

Lemma run_calls_document_witness :
  exists pdfBuffer,
    readFileSync Sample.disk "/srv/uploads/paper.pdf" = inr pdfBuffer
    /\ "JVBERi0xLjc=" = toString_base64 Sample.disk pdfBuffer.
Proof.
  apply (run_calls_document Sample.disk (Sample.succeeding [])
           (Sample.command ["tables"])
           (existT _ (extractTablesAndFigures "JVBERi0xLjc="))).
  - vm_compute. left.
  - reflexivity.
Defined.

Lemma run_harmonizer_input_witness :
  exists pdfBuffer,
    readFileSync Sample.disk "/srv/uploads/paper.pdf" = inr pdfBuffer
    /\ from_full_pdf (Sample.succeeding []) (toString_base64 Sample.disk pdfBuffer)
         1 [("mortality", JNumber (Finite (1 # 10)))].
Proof.
  apply (run_harmonizer_input Sample.disk (Sample.succeeding [])
           (Sample.command ["full-pdf"; "harmonizer"]) 1
           (existT _ (harmonizeOutcomes [("mortality", JNumber (Finite (1 # 10)))]))).
  - reflexivity.
  - reflexivity.
Defined.

Lemma run_without_full_pdf_witness :
  Forall (fun c => outcomes_of c = None)
    (calls (Sample.succeeding []) 0
       (startExtraction Sample.disk
          (Sample.command ["harmonizer"; "tables"; "harmonizer"]))).
Proof.
  apply (run_without_full_pdf Sample.disk (Sample.succeeding [])
           (Sample.command ["harmonizer"; "tables"; "harmonizer"])).
  intros H. repeat (apply elem_of_cons in H as [H|H]; [discriminate H|]).
    inversion H.
Defined.

Lemma run_citations_metadata_consistent_witness :
  Some (make_citations_metadata Sample.seven_citations)
  = make_citations_metadata <$> Some Sample.seven_citations.
Proof.
  apply (run_citations_metadata_consistent Sample.disk
           (Sample.succeeding Sample.seven_citations)
           (Sample.command ["citations"; "imaging"])
           {| outcomes := None;
              tables := None;
              imaging := Some [];
              harmonized_outcomes := None;
              citations := Some Sample.seven_citations;
              citations_metadata :=
                Some (make_citations_metadata Sample.seven_citations);
              study_fields := ∅ |}).
  - intros H. repeat (apply elem_of_cons in H as [H|H]; [discriminate H|]).
    inversion H.
  - vm_compute. reflexivity.
Defined.

Lemma run_all_extractors_fail_witness :
  last (run Sample.disk (Sample.failing (ErrorObject "timeout"))
          (Sample.command ["full-pdf"; "harmonizer"; "citations"]))
  = Some (extractionComplete true empty_object
            ["full-pdf"; "harmonizer"; "citations"] "2025-01-01T00:00:00.000Z")
  /\ count is_moduleComplete
       (run Sample.disk (Sample.failing (ErrorObject "timeout"))
          (Sample.command ["full-pdf"; "harmonizer"; "citations"])) = 0
  /\ count is_moduleError
       (run Sample.disk (Sample.failing (ErrorObject "timeout"))
          (Sample.command ["full-pdf"; "harmonizer"; "citations"]))
     = length (calls (Sample.failing (ErrorObject "timeout")) 0
                 (startExtraction Sample.disk
                    (Sample.command ["full-pdf"; "harmonizer"; "citations"]))).
Proof.
  apply (run_all_extractors_fail Sample.disk
           (Sample.failing (ErrorObject "timeout"))) with (pdfBuffer := "%PDF-1.7").
  - intros n R call. exists (ErrorObject "timeout"). now destruct call.
  - reflexivity.
  - reflexivity.
Defined.

Lemma run_last_writer_wins_witness :
  exists d,
    final_data (run Sample.disk Scenario.overwriting
                  (Sample.command ["imaging"; "tables"; "full-pdf"])) = Some d
    /\ tables d = Some [[("caption", JString "Table 1")]].
Proof.
  apply (run_last_writer_wins Sample.disk Scenario.overwriting
           (Sample.command ["imaging"; "tables"; "full-pdf"]) "%PDF-1.7"
           ["imaging"] {| tableResult_tables := [[]; []] |}
           Scenario.study_with_tables);
    reflexivity.
Defined.




Lemma run_read_failure_witness :
  run Sample.disk (Sample.succeeding [])
    {| filename := "."; modules := ["tables"] |}
  = [progress "reading" "Reading PDF file..." (num 5);
     error "EISDIR: illegal operation on a directory, read"]
  /\ calls (Sample.succeeding []) 0
       (startExtraction Sample.disk {| filename := "."; modules := ["tables"] |})
     = [].
Proof.
  apply (run_read_failure Sample.disk (Sample.succeeding [])
           {| filename := "."; modules := ["tables"] |}
           (ErrorObject "EISDIR: illegal operation on a directory, read"));
    reflexivity.
Defined.

Lemma citations_metadata_in_range_witness :
  (exists a, average_quality (make_citations_metadata Sample.seven_citations)
             = Finite a /\ (0 <= a <= 1)%Q)
  /\ valid_citations (make_citations_metadata Sample.seven_citations)
     <= total_extracted (make_citations_metadata Sample.seven_citations).
Proof.
  apply (citations_metadata_in_range Sample.seven_citations).
  - discriminate.
  - repeat constructor; eexists; (split; [reflexivity|]);
      split; unfold Qle; cbn; lia.
Defined.


Lemma uniqueName_inj_witness :
  uniqueName 1735689600000 {| originalname := "trial-2024.pdf" |}
  = "1735689600000-trial-2024.pdf"
  /\ (1735689600000%N = 1735689600000%N /\ "trial-2024.pdf" = "trial-2024.pdf").
Proof.
  split; [vm_compute; reflexivity|].
  apply (uniqueName_inj 1735689600000 {| originalname := "trial-2024.pdf" |}
           1735689600000 {| originalname := "trial-2024.pdf" |}).
  reflexivity.
Defined.
